(** * neural_sp: length-aware subsamplers and the ASR training loop

    A shallow embedding of
    - [neural_sp/models/seq2seq/encoders/subsampling.py]
      (ConcatSubsampler, Conv1dSubsampler, DropSubsampler, MaxpoolSubsampler)
    - [neural_sp/bin/asr/train_main.py] (the function [train]).

    Python integers are [Z] ([//] is [Z.div] and [%] is [Z.modulo]: both
    round towards minus infinity and follow the sign of the divisor, as in
    Python, for a non-zero divisor; a zero divisor raises and is modelled
    as an error).  Python floats are idealised as rationals [Q].  Raised
    exceptions are the [Raise] case of [result]. *)

From Stdlib Require Import String ZArith QArith Qround Qpower List Bool Lia.
Import ListNotations.
Open Scope Z_scope.

(** ** Exceptions and fallible computations *)

Inductive exn : Type :=
| AssertionError (msg : string)
| AttributeError (attr : string)
| RuntimeError (msg : string)
| ValueError (msg : string)
| ZeroDivisionError
| UnboundLocalError (var : string)
| TypeError (msg : string).

Inductive result (A : Type) : Type :=
| OK (a : A)
| Raise (e : exn).
Arguments OK {A} a.
Arguments Raise {A} e.

(** ** The tensor library, as far as the subsamplers use it

    [xs] is a padded batch [[B, T, F]]: a list of [B] samples, each a list
    of [T] frames, each a list of [F] scalars.  The layers of [torch.nn] and
    the helper [update_lens_1d] of [neural_sp.models.seq2seq.encoders.conv]
    are collaborators whose code is not part of the two modelled files: they
    are the fields of the interface [TorchNN].

    The constructors of the layers that allocate parameters, [nn.Linear] and
    [nn.Conv1d], can raise; [nn.MaxPool1d] only stores its arguments.  Two
    facts about [nn.Conv1d] are part of the interface: it raises RuntimeError
    for a negative kernel size (a weight tensor of negative dimension), and
    it returns a layer for positive channels, kernel size and stride and a
    non-negative padding.  The layers themselves are applied to well-shaped
    batches only, [F] being the width the layer was built for: the shape
    check that a layer makes on its input is not part of the interface. *)

Class TorchNN (R : Type) : Type := {
  Linear : Type;
  Conv1d : Type;
  MaxPool1d : Type;
  (* nn.Linear(in_features, out_features) *)
  nn_Linear : Z -> Z -> result Linear;
  (* nn.Conv1d(in_channels, out_channels, kernel_size, stride, padding) *)
  nn_Conv1d : Z -> Z -> Z -> Z -> Z -> result Conv1d;
  nn_Conv1d_negative_kernel :
    forall i o k s p, k < 0 ->
      exists msg, nn_Conv1d i o k s p = Raise (RuntimeError msg);
  nn_Conv1d_valid :
    forall i o k s p, 0 < i -> 0 < o -> 0 < k -> 0 < s -> 0 <= p ->
      exists c, nn_Conv1d i o k s p = OK c;
  (* nn.MaxPool1d(kernel_size, stride, padding, ceil_mode) *)
  nn_MaxPool1d : Z -> Z -> Z -> bool -> MaxPool1d;
  (* the layer applied to one frame *)
  apply_Linear : Linear -> list R -> list R;
  (* the layers applied along the time axis of one sample *)
  apply_Conv1d : Conv1d -> list (list R) -> list (list R);
  apply_MaxPool1d : MaxPool1d -> list (list R) -> list (list R);
  relu : R -> R;
  update_lens_1d : list Z -> MaxPool1d -> list Z
}.

Definition tensor (R : Type) : Type := list (list (list R)).

(* xs.size(1) of a [B, T, F] batch *)
Definition size1 {R : Type} (xs : tensor R) : nat :=
  match xs with
  | [] => 0%nat
  | x :: _ => length x
  end.

(* math.ceil(a / b) on integers: [/] is true division *)
Definition math_ceil_div (a b : Z) : Z := Qceiling (inject_Z a / inject_Z b).

Section Subsampling.
Context {R : Type} `{NN : TorchNN R}.

(** *** ConcatSubsampler *)

Record ConcatSubsampler : Type := {
  concat_subsampling_factor : Z;
  concat_proj : option Linear (* the attribute exists only if factor > 1 *)
}.

Definition ConcatSubsampler_init (subsampling_factor n_units : Z)
  : result ConcatSubsampler :=
  if 1 <? subsampling_factor
  then match nn_Linear (n_units * subsampling_factor) n_units with
       | OK proj => OK {| concat_subsampling_factor := subsampling_factor;
                          concat_proj := Some proj |}
       | Raise e => Raise e
       end
  else OK {| concat_subsampling_factor := subsampling_factor;
             concat_proj := None |}.

(* [t for t in range(T) if (t + 1) % factor == 0] *)
Definition concat_steps (factor : Z) (T : nat) : list nat :=
  filter (fun t => (Z.of_nat t + 1) mod factor =? 0) (seq 0 T).

(* torch.cat([x[t - r : t - r + 1] for r in range(factor - 1, -1, -1)], dim=-1)
   for one sample x: frames t-factor+1 .. t side by side *)
Definition concat_frames (factor : Z) (x : list (list R)) (t : nat)
  : list R :=
  concat (firstn (Z.to_nat factor)
                 (skipn (t + 1 - Z.to_nat factor) x)).

(* [max(1, i.item() // factor) for i in xlens] *)
Definition concat_lens (factor : Z) (xlens : list Z) : list Z :=
  map (fun i => Z.max 1 (i / factor)) xlens.

(* forward, on a well-shaped batch: the frames of xs have the n_units
   features that self.proj was built for (times the factor, once
   concatenated), so that self.proj accepts them *)
Definition ConcatSubsampler_forward (m : ConcatSubsampler)
    (xs : tensor R) (xlens : list Z) : result (tensor R * list Z) :=
  let f := concat_subsampling_factor m in
  if f =? 1 then OK (xs, xlens)
  else
    (* (t + 1) % 0 raises as soon as there is a time step *)
    if (f =? 0) && negb (Nat.eqb (size1 xs) 0) then Raise ZeroDivisionError
    else
      let ts := concat_steps f (size1 xs) in
      (* torch.cat of an empty list raises: no complete group of frames
         (or, for a factor below 1, no frame in a group) *)
      if (f <? 1) || Nat.eqb (length ts) 0
      then Raise (RuntimeError "torch.cat(): empty list of tensors")
      else
        match concat_proj m with
        | None => Raise (AttributeError "proj")
        | Some proj =>
            let xs' :=
              map (fun x =>
                     map (fun t => map relu
                                     (apply_Linear proj (concat_frames f x t)))
                         ts) xs in
            OK (xs', concat_lens f xlens)
        end.

(** *** Conv1dSubsampler *)

Record Conv1dSubsampler : Type := {
  conv1d_subsampling_factor : Z;
  conv1d_conv1d : option Conv1d;
  conv1d_pool : option MaxPool1d
}.

Definition Conv1dSubsampler_init (subsampling_factor n_units
                                  conv_kernel_size : Z)
  : result Conv1dSubsampler :=
  if negb (conv_kernel_size mod 2 =? 1)
  then Raise (AssertionError "Kernel size should be odd for 'same' conv.")
  else
    if 1 <? subsampling_factor
    then match nn_Conv1d n_units n_units conv_kernel_size 1
                         ((conv_kernel_size - 1) / 2) with
         | OK conv =>
             OK {| conv1d_subsampling_factor := subsampling_factor;
                   conv1d_conv1d := Some conv;
                   conv1d_pool :=
                     Some (nn_MaxPool1d subsampling_factor subsampling_factor
                                        0 true) |}
         | Raise e => Raise e
         end
    else OK {| conv1d_subsampling_factor := subsampling_factor;
               conv1d_conv1d := None;
               conv1d_pool := None |}.

Definition Conv1dSubsampler_forward (m : Conv1dSubsampler)
    (xs : tensor R) (xlens : list Z) : result (tensor R * list Z) :=
  if conv1d_subsampling_factor m =? 1 then OK (xs, xlens)
  else
    match conv1d_conv1d m with
    | None => Raise (AttributeError "conv1d")
    | Some conv =>
        match conv1d_pool m with
        | None => Raise (AttributeError "pool")
        | Some pool =>
            let xs1 := map (fun x => map (map relu) (apply_Conv1d conv x)) xs in
            let xs2 := map (apply_MaxPool1d pool) xs1 in
            OK (xs2, update_lens_1d xlens pool)
        end
    end.

(** *** DropSubsampler *)

Record DropSubsampler : Type := {
  drop_subsampling_factor : Z
}.

Definition DropSubsampler_init (subsampling_factor : Z) : DropSubsampler :=
  {| drop_subsampling_factor := subsampling_factor |}.

(* x[::factor] for factor >= 1: frames 0, factor, 2 * factor, ... *)
Fixpoint stride_aux {A : Type} (k skip : nat) (x : list A) : list A :=
  match x with
  | [] => []
  | a :: x' =>
      match skip with
      | O => a :: stride_aux k (k - 1) x'
      | S s => stride_aux k s x'
      end
  end.

Definition stride {A : Type} (factor : Z) (x : list A) : list A :=
  stride_aux (Z.to_nat factor) 0 x.

(* [max(1, math.ceil(i.item() / factor)) for i in xlens] *)
Definition drop_lens (factor : Z) (xlens : list Z) : list Z :=
  map (fun i => Z.max 1 (math_ceil_div i factor)) xlens.

Definition DropSubsampler_forward (m : DropSubsampler)
    (xs : tensor R) (xlens : list Z) : result (tensor R * list Z) :=
  let f := drop_subsampling_factor m in
  if f =? 1 then OK (xs, xlens)
  else
    (* a slice step must be positive *)
    if f <? 1 then Raise (ValueError "slice step must be greater than zero")
    else OK (map (stride f) xs, drop_lens f xlens).

(** *** MaxpoolSubsampler *)

Record MaxpoolSubsampler : Type := {
  maxpool_subsampling_factor : Z;
  maxpool_pool : option MaxPool1d
}.

Definition MaxpoolSubsampler_init (subsampling_factor : Z)
  : MaxpoolSubsampler :=
  {| maxpool_subsampling_factor := subsampling_factor;
     maxpool_pool := if 1 <? subsampling_factor
                     then Some (nn_MaxPool1d subsampling_factor
                                             subsampling_factor 0 true)
                     else None |}.

Definition MaxpoolSubsampler_forward (m : MaxpoolSubsampler)
    (xs : tensor R) (xlens : list Z) : result (tensor R * list Z) :=
  if maxpool_subsampling_factor m =? 1 then OK (xs, xlens)
  else
    match maxpool_pool m with
    | None => Raise (AttributeError "pool")
    | Some pool => OK (map (apply_MaxPool1d pool) xs, update_lens_1d xlens pool)
    end.

End Subsampling.

(** A small instance of the tensor interface over [Z], to run the layers on
    concrete batches: a layer is [unit], built for non-negative sizes only
    (a convolution for positive ones); a linear layer sums its inputs into
    one feature, convolution and pooling keep the frames. *)
Definition ZNN_Linear (i o : Z) : result unit :=
  if (i <? 0) || (o <? 0)
  then Raise (RuntimeError "Trying to create tensor with negative dimension")
  else OK tt.

Definition ZNN_Conv1d (i o k s p : Z) : result unit :=
  if (0 <? i) && (0 <? o) && (0 <? k) && (0 <? s) && (0 <=? p)
  then OK tt
  else Raise (RuntimeError "Trying to create tensor with negative dimension").

Lemma ZNN_Conv1d_negative_kernel (i o k s p : Z) :
  k < 0 -> exists msg, ZNN_Conv1d i o k s p = Raise (RuntimeError msg).
Proof.
  intros Hk. unfold ZNN_Conv1d.
  assert ((0 <? k) = false) as -> by (apply Z.ltb_ge; lia).
  rewrite !andb_false_r. cbn [andb]. eexists. reflexivity.
Qed.

Lemma ZNN_Conv1d_valid (i o k s p : Z) :
  0 < i -> 0 < o -> 0 < k -> 0 < s -> 0 <= p ->
  exists c, ZNN_Conv1d i o k s p = OK c.
Proof.
  intros Hi Ho Hk Hs Hp. unfold ZNN_Conv1d.
  apply Z.ltb_lt in Hi, Ho, Hk, Hs. apply Z.leb_le in Hp.
  rewrite Hi, Ho, Hk, Hs, Hp. now exists tt.
Qed.

#[local] Instance ZNN : TorchNN Z := {|
  Linear := unit;
  Conv1d := unit;
  MaxPool1d := Z;
  nn_Linear := ZNN_Linear;
  nn_Conv1d := ZNN_Conv1d;
  nn_Conv1d_negative_kernel := ZNN_Conv1d_negative_kernel;
  nn_Conv1d_valid := ZNN_Conv1d_valid;
  nn_MaxPool1d := fun k _ _ _ => k;
  apply_Linear := fun _ x => [fold_right Z.add 0 x];
  apply_Conv1d := fun _ x => x;
  apply_MaxPool1d := fun _ x => x;
  relu := Z.max 0;
  update_lens_1d := fun xlens _ => xlens
|}.


(** ** The training driver [train] of train_main.py *)

(** The configuration fields of [args] that decide the control flow. *)
Record args : Type := {
  ngpus : Z;
  batch_size : Z;
  print_step : Z;
  corpus : string;
  label_type : string;
  eval_sets : list string;
  saved_model : option string;
  learning_rate : Q;
  num_epochs : Z;
  eval_start_epoch : Z;
  not_improved_patient_epoch : Z;
  convert_to_sgd_epoch : Z
}.

(* if args.ngpus > 1: args.batch_size -= 10; args.print_step //= args.ngpus *)
Definition reduce_batch_size (a : args) : args :=
  if 1 <? ngpus a
  then {| ngpus := ngpus a;
          batch_size := batch_size a - 10;
          print_step := print_step a / ngpus a;
          corpus := corpus a;
          label_type := label_type a;
          eval_sets := eval_sets a;
          saved_model := saved_model a;
          learning_rate := learning_rate a;
          num_epochs := num_epochs a;
          eval_start_epoch := eval_start_epoch a;
          not_improved_patient_epoch := not_improved_patient_epoch a;
          convert_to_sgd_epoch := convert_to_sgd_epoch a |}
  else a.

(* sub in s, on Python strings *)
Fixpoint contains (sub s : string) : bool :=
  if prefix sub s then true
  else match s with
       | EmptyString => false
       | String _ s' => contains sub s'
       end.

(* batch_size=args.batch_size * args.ngpus, as Dataset receives it for the
   training and the development set *)
Definition dataset_batch_size (a : args) : Z := batch_size a * ngpus a.

(* the evaluation sets that are loaded: none of them for a phone label
   type on a corpus other than timit *)
Definition load_eval_sets (a : args) : list string :=
  filter (fun _ => negb (contains "phone" (label_type a)
                         && negb (String.eqb (corpus a) "timit")))
         (eval_sets a).

Inductive evaluator : Type := eval_word | eval_wordpiece | eval_char | eval_phone.

(* the if/elif chain on args.label_type; None is the final else *)
Definition select_evaluator (label : string) : option evaluator :=
  if String.eqb label "word" then Some eval_word
  else if String.eqb label "wordpiece" then Some eval_wordpiece
  else if contains "char" label then Some eval_char
  else if contains "phone" label then Some eval_phone
  else None.

Inductive dataset : Type := train_set | dev_set | eval_set (csv_path : string).

(** What [train] does to its collaborators, in the order it does it. *)
Inductive event : Type :=
| BuildDataset (d : dataset) (batch_size : Z)   (* Dataset(..., batch_size=...) *)
| BuildModel                                  (* Seq2seq(args) *)
| Update (step : Z)                      (* updater(model, batch_train) *)
| Report (step : Z)                      (* updater(..., is_eval=True), reporter.step *)
| SaveCheckpoint (epoch step : Z) (lr best : Q)
| EvalDev (ev : evaluator) (epoch : Z)
| EvalTest (ev : evaluator) (set : string)
| DecayLR (epoch : Z) (value : Q)        (* lr_controller.decay_lr *)
| SetOptimizerSGD (epoch : Z) (lr : Q).  (* model.module.set_optimizer('sgd', ...) *)

(** The local variables of [train] that the loop carries, and the trace of
    events so far (oldest first). *)
Record state : Type := {
  epoch : Z;
  step : Z;
  lr : Q;
  metric_dev_best : Q;
  not_improved_epoch : Z;
  trace : list event
}.

(** What the collaborators answer in one pass of the loop: the flag of
    [train_set.next()], the metric of the evaluator on the development set
    and the learning rate that [lr_controller.decay_lr] returns (the last
    two are read only on the passes that ask for them). *)
Record tick : Type := {
  is_new_epoch : bool;
  metric_dev : Q;
  decayed_lr : Q
}.

(** A state and exception monad for the body of the loop. *)
Inductive res (A : Type) : Type :=
| Ret (a : A) (s : state)
| Exc (e : exn) (s : state).
Arguments Ret {A} a s.
Arguments Exc {A} e s.

Definition M (A : Type) : Type := state -> res A.

Definition ret {A : Type} (a : A) : M A := fun s => Ret a s.

Definition mbind {A B : Type} (m : M A) (k : A -> M B) : M B :=
  fun s => match m s with
           | Ret a s' => k a s'
           | Exc e s' => Exc e s'
           end.

Definition raise {A : Type} (e : exn) : M A := fun s => Exc e s.
Definition get : M state := fun s => Ret s s.
Definition put (s : state) : M unit := fun _ => Ret tt s.

Declare Scope loop_scope.
Delimit Scope loop_scope with loop.
Notation "x <- m ;; k" := (mbind m (fun x => k))
  (at level 61, m at next level, right associativity) : loop_scope.
Notation "m ;; k" := (mbind m (fun _ => k))
  (at level 61, right associativity) : loop_scope.

Definition log (e : event) : M unit :=
  fun s => Ret tt {| epoch := epoch s; step := step s; lr := lr s;
                     metric_dev_best := metric_dev_best s;
                     not_improved_epoch := not_improved_epoch s;
                     trace := trace s ++ [e] |}.

Definition set_epoch (v : Z) : M unit :=
  fun s => Ret tt {| epoch := v; step := step s; lr := lr s;
                     metric_dev_best := metric_dev_best s;
                     not_improved_epoch := not_improved_epoch s;
                     trace := trace s |}.

Definition set_step (v : Z) : M unit :=
  fun s => Ret tt {| epoch := epoch s; step := v; lr := lr s;
                     metric_dev_best := metric_dev_best s;
                     not_improved_epoch := not_improved_epoch s;
                     trace := trace s |}.

Definition set_lr (v : Q) : M unit :=
  fun s => Ret tt {| epoch := epoch s; step := step s; lr := v;
                     metric_dev_best := metric_dev_best s;
                     not_improved_epoch := not_improved_epoch s;
                     trace := trace s |}.

Definition set_metric_dev_best (v : Q) : M unit :=
  fun s => Ret tt {| epoch := epoch s; step := step s; lr := lr s;
                     metric_dev_best := v;
                     not_improved_epoch := not_improved_epoch s;
                     trace := trace s |}.

Definition set_not_improved_epoch (v : Z) : M unit :=
  fun s => Ret tt {| epoch := epoch s; step := step s; lr := lr s;
                     metric_dev_best := metric_dev_best s;
                     not_improved_epoch := v;
                     trace := trace s |}.

(* x < y on floats *)
Definition Qlt_bool (x y : Q) : bool := negb (Qle_bool y x).

Inductive control : Type := Continue | Break.

Open Scope loop_scope.

(* model.module.save_checkpoint(save_path, epoch, step, learning_rate,
   metric_dev_best) *)
Definition save_checkpoint : M unit :=
  s <- get ;;
  log (SaveCheckpoint (epoch s) (step s) (lr s) (metric_dev_best s)).

(* model.module.optimizer, learning_rate = lr_controller.decay_lr(...) *)
Definition decay_lr (t : tick) : M unit :=
  s <- get ;;
  log (DecayLR (epoch s) (metric_dev t)) ;;
  set_lr (decayed_lr t).

(* lines 389-403, for eval_set in eval_sets: the evaluator of the label
   type on each set, then the log line of its error rate.  The log line of
   the character branch (line 398) has three conversions for two values:
   its % raises TypeError once eval_char has returned. *)
Fixpoint test_eval_sets (ev : evaluator) (sets : list string) : M unit :=
  match sets with
  | [] => ret tt
  | set :: sets' =>
      log (EvalTest ev set) ;;
      match ev with
      | eval_char => raise (TypeError "not enough arguments for format string")
      | _ => test_eval_sets ev sets'
      end
  end.

(* lines 312-338: the report every print_step steps *)
Definition report (a : args) : M unit :=
  s <- get ;;
  if print_step a =? 0 then raise ZeroDivisionError
  else if (step s + 1) mod print_step a =? 0 then log (Report (step s))
  else ret tt.

(* lines 354-431: the branch of an epoch at or past eval_start_epoch *)
Definition evaluate (a : args) (t : tick) : M control :=
  s <- get ;;
  match select_evaluator (label_type a) with
  | None => raise (ValueError (label_type a))
  | Some ev =>
      log (EvalDev ev (epoch s)) ;;
      (if Qlt_bool (metric_dev t) (metric_dev_best s)
       then
         set_metric_dev_best (metric_dev t) ;;
         set_not_improved_epoch 0 ;;
         decay_lr t ;;
         save_checkpoint ;;
         test_eval_sets ev (load_eval_sets a)
       else
         decay_lr t ;;
         set_not_improved_epoch (not_improved_epoch s + 1)) ;;
      s1 <- get ;;
      (* Early stopping *)
      if not_improved_epoch s1 =? not_improved_patient_epoch a then ret Break
      else if epoch s1 =? convert_to_sgd_epoch a
           then log (SetOptimizerSGD (epoch s1) (learning_rate a)) ;; ret Continue
           else ret Continue
  end.

(* lines 342-443: the body of [if is_new_epoch:] *)
Definition epoch_end (a : args) (t : tick) : M control :=
  s <- get ;;
  c <- (if epoch s <? eval_start_epoch a
        then save_checkpoint ;; ret Continue
        else evaluate a t) ;;
  match c with
  | Break => ret Break
  | Continue =>
      if epoch s =? num_epochs a then ret Break
      else set_epoch (epoch s + 1) ;; ret Continue
  end.

(* lines 305-443: one pass of [while True:] *)
Definition iteration (a : args) (t : tick) : M control :=
  s <- get ;;
  log (Update (step s)) ;;
  report a ;;
  set_step (step s + ngpus a) ;;
  if is_new_epoch t then epoch_end a t else ret Continue.

Close Scope loop_scope.

(** How a run of the loop over finitely many answers of the collaborators
    stands at their end: still in the loop, left by [break] (and [train]
    returns), or left by an exception. *)
Inductive run : Type :=
| Running (s : state)
| Returned (s : state)
| Failed (e : exn) (s : state).

Fixpoint loop (a : args) (ticks : list tick) (s : state) : run :=
  match ticks with
  | [] => Running s
  | t :: ticks' =>
      match iteration a t s with
      | Ret Continue s' => loop a ticks' s'
      | Ret Break s' => Returned s'
      | Exc e s' => Failed e s'
      end
  end.

(** Modelled from the spec: the constructors of the collaborators that
    [train] builds before its loop -- Dataset of neural_sp.datasets.loader_asr
    and Seq2seq of neural_sp.models.seq2seq.seq2seq -- are missing from the
    source at hand.  By the spec (sections 6 and 7) an unrecognised label type
    is a fatal configuration error naming the offending value, raised at
    construction/validation time, like the even kernel size that the
    construction of the model rejects; a recognised label type is one of
    word, wordpiece, char-like and phone-like.  The datasets are taken to be
    built as the iterator contract of the spec (section 4.2) describes them,
    and the validation to be made when the model is constructed from the
    configuration, [Seq2seq(args)]. *)
Definition Seq2seq_init (a : args) : result unit :=
  match select_evaluator (label_type a) with
  | Some _ => OK tt
  | None => Raise (ValueError (label_type a))
  end.

(* lines 69-115: the datasets *)
Definition datasets (a : args) : list event :=
  [BuildDataset train_set (dataset_batch_size a);
   BuildDataset dev_set (dataset_batch_size a)]
  ++ map (fun csv => BuildDataset (eval_set csv) 1) (load_eval_sets a).

(* lines 69-135: the datasets, then the model *)
Definition setup (a : args) : list event :=
  [BuildDataset train_set (dataset_batch_size a);
   BuildDataset dev_set (dataset_batch_size a)]
  ++ map (fun csv => BuildDataset (eval_set csv) 1) (load_eval_sets a)
  ++ [BuildModel].

(* epoch, step = 1, 0; learning_rate = float(args.learning_rate);
   metric_dev_best = 100; not_improved_epoch = 0 *)
Definition initial_state (a : args) : state :=
  {| epoch := 1; step := 0; lr := learning_rate a;
     metric_dev_best := 100; not_improved_epoch := 0; trace := setup a |}.

(* the datasets are built and the construction of the model has raised:
   the local variables of the loop are not bound yet, the fields stand at
   the values they would be given *)
Definition construction_state (a : args) : state :=
  {| epoch := 1; step := 0; lr := learning_rate a;
     metric_dev_best := 100; not_improved_epoch := 0; trace := datasets a |}.

(* [train]: the local variables epoch and step are bound only under
   [if args.saved_model is None:].  The wrapping of the model in
   CustomDataParallel (for ngpus >= 1) and the attributes of Seq2seq are
   outside the two modelled files and play no part here. *)
Definition train (a : args) (ticks : list tick) : run :=
  let a' := reduce_batch_size a in
  match Seq2seq_init a' with
  | Raise e => Failed e (construction_state a')
  | OK _ =>
      match saved_model a' with
      | Some _ => Failed (UnboundLocalError "epoch") (initial_state a')
      | None => loop a' ticks (initial_state a')
      end
  end.

(** The events of a kind in a trace. *)
Definition is_update (e : event) : bool :=
  match e with Update _ => true | _ => false end.
Definition is_checkpoint (e : event) : bool :=
  match e with SaveCheckpoint _ _ _ _ => true | _ => false end.
Definition is_sgd (e : event) : bool :=
  match e with SetOptimizerSGD _ _ => true | _ => false end.

Definition count (p : event -> bool) (tr : list event) : nat :=
  length (filter p tr).

Definition run_state (r : run) : state :=
  match r with
  | Running s | Returned s | Failed _ s => s
  end.

Definition res_state {A : Type} (r : res A) : state :=
  match r with
  | Ret _ s | Exc _ s => s
  end.

(** The invariant of the loop for the switch to SGD: it has not happened,
    or it has happened once and the epoch counter is past the switch epoch. *)
Definition sgd_inv (a : args) (s : state) : Prop :=
  count is_sgd (trace s) = 0%nat \/
  (count is_sgd (trace s) = 1%nat /\ convert_to_sgd_epoch a < epoch s).

(** ** The length rules, in words *)

(** [c] is the ceiling of [L / f]: the least integer with [L <= f * c]. *)
Definition is_ceiling (L f c : Z) : Prop := f * (c - 1) < L <= f * c.

(** [q] is the floor of [L / f]: the greatest integer with [f * q <= L]. *)
Definition is_floor (L f q : Z) : Prop := f * q <= L < f * (q + 1).

(** ** Concrete batches, configurations and answers *)

(* the module that ConcatSubsampler(f, n_units) builds over ZNN for
   non-negative n_units *)
Definition concat_ZNN (f : Z) : ConcatSubsampler (NN := ZNN) :=
  {| concat_subsampling_factor := f;
     concat_proj := if 1 <? f then Some tt else None |}.

(* two samples of seven one-feature frames; the second is one frame long
   and padded *)
Definition batch_7_1 : tensor Z :=
  [ [[1]; [2]; [3]; [4]; [5]; [6]; [7]];
    [[9]; [0]; [0]; [0]; [0]; [0]; [0]] ].

(* one device, evaluation from the first epoch on *)
Definition cfg_single : args :=
  {| ngpus := 1; batch_size := 50; print_step := 2; corpus := "timit";
     label_type := "phone"; eval_sets := ["test"%string]; saved_model := None;
     learning_rate := 1 # 1000; num_epochs := 3; eval_start_epoch := 1;
     not_improved_patient_epoch := 5; convert_to_sgd_epoch := 2 |}.

(* two devices *)
Definition cfg_multi : args :=
  {| ngpus := 2; batch_size := 50; print_step := 200; corpus := "timit";
     label_type := "phone"; eval_sets := ["test"%string]; saved_model := None;
     learning_rate := 1 # 1000; num_epochs := 3; eval_start_epoch := 1;
     not_improved_patient_epoch := 5; convert_to_sgd_epoch := 2 |}.

(* a single epoch *)
Definition cfg_one_epoch : args :=
  {| ngpus := 1; batch_size := 50; print_step := 2; corpus := "timit";
     label_type := "phone"; eval_sets := ["test"%string]; saved_model := None;
     learning_rate := 1 # 1000; num_epochs := 1; eval_start_epoch := 1;
     not_improved_patient_epoch := 5; convert_to_sgd_epoch := 2 |}.

(* a label type that no branch recognises, evaluation starting after the
   last epoch *)
Definition cfg_unknown_label : args :=
  {| ngpus := 1; batch_size := 50; print_step := 2; corpus := "timit";
     label_type := "syllable"; eval_sets := ["test"%string]; saved_model := None;
     learning_rate := 1 # 1000; num_epochs := 1; eval_start_epoch := 2;
     not_improved_patient_epoch := 5; convert_to_sgd_epoch := 2 |}.

(* the switch to SGD configured before the first evaluated epoch *)
Definition cfg_early_sgd : args :=
  {| ngpus := 1; batch_size := 50; print_step := 2; corpus := "timit";
     label_type := "phone"; eval_sets := ["test"%string]; saved_model := None;
     learning_rate := 1 # 1000; num_epochs := 3; eval_start_epoch := 2;
     not_improved_patient_epoch := 5; convert_to_sgd_epoch := 1 |}.

(* a pass of the loop that ends an epoch with development metric [m] *)
Definition epoch_tick (m : Q) : tick :=
  {| is_new_epoch := true; metric_dev := m; decayed_lr := 1 # 1000 |}.

(* a pass of the loop inside an epoch *)
Definition batch_tick : tick :=
  {| is_new_epoch := false; metric_dev := 0; decayed_lr := 1 # 1000 |}.

(** ** Further readings of a trace and of the answers of the collaborators *)

Definition is_report (e : event) : bool :=
  match e with Report _ => true | _ => false end.
Definition is_test (e : event) : bool :=
  match e with EvalTest _ _ => true | _ => false end.
Definition is_decay (e : event) : bool :=
  match e with DecayLR _ _ => true | _ => false end.


(* how many of the passes end an epoch *)
Definition epoch_ends (ticks : list tick) : nat :=
  length (filter is_new_epoch ticks).

(* s is a substring of t *)
Definition substring_of (sub s : string) : Prop :=
  exists pre post, s = (pre ++ sub ++ post)%string.

(** ** The subsampling factors that [train] hands to the datasets
    (lines 59-66) *)

(* for p in args.conv_poolings: if len(p) > 0: subsample_factor *= p[0] *)
Definition conv_subsample_factor (conv_poolings : list (list Z)) : Z :=
  fold_left (fun acc p => match p with
                          | [] => acc
                          | p0 :: _ => acc * p0
                          end) conv_poolings 1.

(* sum(l) *)
Definition py_sum (l : list Z) : Z := fold_left Z.add l 0.

(* l[:k]: a negative k counts from the end *)
Definition slice_to {A : Type} (k : Z) (l : list A) : list A :=
  if 0 <=? k then firstn (Z.to_nat k) l
  else firstn (length l - Z.to_nat (- k)) l.

(* 2 ** n: an integer for n >= 0, the float 1 / 2 ** -n otherwise *)
Definition pow2 (n : Z) : Q := Qpower 2 n.

(* subsample_factor, as it stands after line 66 *)
Definition subsample_factor (conv_poolings : list (list Z))
    (subsample : list Z) : Q :=
  inject_Z (conv_subsample_factor conv_poolings) * pow2 (py_sum subsample).

(* subsample_factor_sub, as it stands after line 65 *)
Definition subsample_factor_sub (train_set_sub : option string)
    (conv_poolings : list (list Z)) (subsample : list Z)
    (enc_num_layers_sub : Z) : Q :=
  match train_set_sub with
  | None => 1
  | Some _ =>
      inject_Z (conv_subsample_factor conv_poolings)
      * pow2 (py_sum (slice_to (enc_num_layers_sub - 1) subsample))
  end.


(** * Properties *)

(** ** Arithmetic of the length rules *)

Lemma math_ceil_div_pos (a b : Z) :
  0 < b -> math_ceil_div a b = - ((- a) / b).
Proof.
  intros Hb. destruct b as [|p|p]; try lia.
  unfold math_ceil_div, Qceiling, Qfloor, Qdiv, Qinv, Qmult, Qopp, inject_Z.
  cbn [Qnum Qden]. now rewrite Z.mul_1_r, Pos.mul_1_l.
Qed.

Lemma math_ceil_div_is_ceiling (L f : Z) :
  0 < f -> is_ceiling L f (math_ceil_div L f).
Proof.
  intros Hf. rewrite (math_ceil_div_pos L f Hf). unfold is_ceiling.
  pose proof (Z.div_mod (- L) f ltac:(lia)) as E.
  pose proof (Z.mod_pos_bound (- L) f Hf) as B.
  nia.
Qed.

Lemma floor_div_is_floor (L f : Z) : 0 < f -> is_floor L f (L / f).
Proof.
  intros Hf. unfold is_floor.
  pose proof (Z.div_mod L f ltac:(lia)) as E.
  pose proof (Z.mod_pos_bound L f Hf) as B.
  nia.
Qed.

Lemma nth_error_map_Some {A B : Type} (g : A -> B) (l : list A) (i : nat) (a : A) :
  nth_error l i = Some a -> nth_error (map g l) i = Some (g a).
Proof.
  revert i. induction l as [|x l IH]; intros [|i] H; cbn in *; try discriminate.
  - now inversion H.
  - now apply IH.
Qed.

Section SubsamplingProperties.
Context {R : Type} `{NN : TorchNN R}.

(** A batch with a full group of [f] frames has a step that closes a group. *)
Lemma concat_steps_nonempty (f : Z) (T : nat) :
  1 < f -> (Z.to_nat f <= T)%nat -> Nat.eqb (length (concat_steps f T)) 0 = false.
Proof.
  intros Hf HT. apply Nat.eqb_neq. intros E.
  assert (In (Z.to_nat (f - 1)) (concat_steps f T)) as Hin.
  { unfold concat_steps. apply filter_In. split.
    - apply in_seq. lia.
    - apply Z.eqb_eq. rewrite Z2Nat.id by lia.
      replace (f - 1 + 1) with (1 * f) by lia. apply Z.mod_mul. lia. }
  destruct (concat_steps f T); [contradiction | discriminate].
Qed.

(** C1 (as amended): for a factor f > 1, on a batch with at least f time
    steps, ConcatSubsampler.forward returns a length vector as long as the
    input one whose entry i is max(1, floor(xlens[i] / f)): the trailing
    incomplete group is dropped, never rounded up, and the result is clamped
    to at least 1, so it is floor(xlens[i] / f) whenever xlens[i] >= f; with
    f = 2 a length of 7 gives 3. *)
Theorem ConcatSubsampler_forward_lens
    (m : ConcatSubsampler) (proj : Linear) (xs : tensor R) (xlens : list Z) :
  1 < concat_subsampling_factor m ->
  concat_proj m = Some proj ->
  (Z.to_nat (concat_subsampling_factor m) <= size1 xs)%nat ->
  exists xs' xlens',
    ConcatSubsampler_forward m xs xlens = OK (xs', xlens') /\
    length xlens' = length xlens /\
    forall i L, nth_error xlens i = Some L ->
      exists q, is_floor L (concat_subsampling_factor m) q /\
                nth_error xlens' i = Some (Z.max 1 q) /\
                (concat_subsampling_factor m <= L -> nth_error xlens' i = Some q) /\
                (concat_subsampling_factor m = 2 -> L = 7 ->
                 nth_error xlens' i = Some 3).
Proof.
  intros Hf Hp HT. unfold ConcatSubsampler_forward.
  set (f := concat_subsampling_factor m) in *.
  destruct (f =? 1) eqn:E1; [apply Z.eqb_eq in E1; lia|].
  destruct (f =? 0) eqn:E0; [apply Z.eqb_eq in E0; lia|].
  cbn [andb]. destruct (f <? 1) eqn:E2; [apply Z.ltb_lt in E2; lia|].
  cbn [orb]. rewrite (concat_steps_nonempty f (size1 xs) Hf HT), Hp.
  eexists; eexists; split; [reflexivity|]. split.
  - unfold concat_lens. now rewrite length_map.
  - intros i L HL. exists (L / f).
    pose proof (floor_div_is_floor L f ltac:(lia)) as Hq.
    assert (nth_error (concat_lens f xlens) i = Some (Z.max 1 (L / f))) as Hn
      by (unfold concat_lens; now apply nth_error_map_Some with (g := fun i => Z.max 1 (i / f))).
    repeat split; try apply Hq; try exact Hn.
    + intros HfL. rewrite Hn. f_equal. unfold is_floor in Hq. nia.
    + intros H2 H7. rewrite Hn, H2, H7. reflexivity.
Qed.

(** C7: for a factor f > 1, DropSubsampler.forward returns a length vector
    as long as the input one whose entry i is max(1, ceil(xlens[i] / f)), a
    function of xlens[i] and f alone; with f = 3 the lengths [1,2,3,4] give
    [1,1,1,2], whatever the data. *)
Theorem DropSubsampler_forward_lens
    (m : DropSubsampler) (xs : tensor R) (xlens : list Z) :
  1 < drop_subsampling_factor m ->
  exists xs' xlens',
    DropSubsampler_forward m xs xlens = OK (xs', xlens') /\
    length xlens' = length xlens /\
    (forall i L, nth_error xlens i = Some L ->
       exists c, is_ceiling L (drop_subsampling_factor m) c /\
                 nth_error xlens' i = Some (Z.max 1 c)) /\
    (drop_subsampling_factor m = 3 -> xlens = [1; 2; 3; 4] ->
     xlens' = [1; 1; 1; 2]).
Proof.
  intros Hf. unfold DropSubsampler_forward.
  set (f := drop_subsampling_factor m) in *.
  destruct (f =? 1) eqn:E1; [apply Z.eqb_eq in E1; lia|].
  destruct (f <? 1) eqn:E2; [apply Z.ltb_lt in E2; lia|].
  eexists; eexists; split; [reflexivity|]. split; [|split].
  - unfold drop_lens. now rewrite length_map.
  - intros i L HL. exists (math_ceil_div L f). split.
    + apply math_ceil_div_is_ceiling. lia.
    + unfold drop_lens.
      now apply nth_error_map_Some with (g := fun i => Z.max 1 (math_ceil_div i f)).
  - intros H3 Hx. rewrite H3, Hx. reflexivity.
Qed.

(** Two batches that agree on sample i get the same output length for it:
    no length leaks from one sample of a batch to another. *)
Lemma DropSubsampler_forward_independent
    (m : DropSubsampler) (xs1 xs2 xs1' xs2' : tensor R)
    (xlens1 xlens2 out1 out2 : list Z) (i : nat) :
  DropSubsampler_forward m xs1 xlens1 = OK (xs1', out1) ->
  DropSubsampler_forward m xs2 xlens2 = OK (xs2', out2) ->
  nth_error xlens1 i = nth_error xlens2 i ->
  nth_error out1 i = nth_error out2 i.
Proof.
  unfold DropSubsampler_forward.
  destruct (drop_subsampling_factor m =? 1).
  - intros H1 H2. inversion H1; inversion H2; subst. auto.
  - destruct (drop_subsampling_factor m <? 1); [discriminate|].
    intros H1 H2 Hi. inversion H1; inversion H2; subst.
    unfold drop_lens. rewrite !nth_error_map, Hi. reflexivity.
Qed.

(** C8: each of the four subsamplers, configured with factor 1, returns
    the pair (xs, xlens) it was given, data and lengths unchanged. *)
Theorem subsamplers_factor_1_identity
    (mc : ConcatSubsampler) (mv : Conv1dSubsampler)
    (md : DropSubsampler) (mm : MaxpoolSubsampler)
    (xs : tensor R) (xlens : list Z) :
  (concat_subsampling_factor mc = 1 ->
   ConcatSubsampler_forward mc xs xlens = OK (xs, xlens)) /\
  (conv1d_subsampling_factor mv = 1 ->
   Conv1dSubsampler_forward mv xs xlens = OK (xs, xlens)) /\
  (drop_subsampling_factor md = 1 ->
   DropSubsampler_forward md xs xlens = OK (xs, xlens)) /\
  (maxpool_subsampling_factor mm = 1 ->
   MaxpoolSubsampler_forward mm xs xlens = OK (xs, xlens)).
Proof.
  unfold ConcatSubsampler_forward, Conv1dSubsampler_forward,
    DropSubsampler_forward, MaxpoolSubsampler_forward.
  repeat split; intros ->; reflexivity.
Qed.

(** C9 (as amended): Conv1dSubsampler.__init__ raises (the assertion
    fails) for every even conv_kernel_size, whatever the factor; for an odd
    conv_kernel_size the assertion passes, and the constructor returns a
    module when the factor is at most 1 (no layer is built) and when the
    kernel size and n_units are positive. *)
Theorem Conv1dSubsampler_init_kernel_size
    (subsampling_factor n_units conv_kernel_size : Z) :
  (Z.Even conv_kernel_size ->
   Conv1dSubsampler_init subsampling_factor n_units conv_kernel_size
   = Raise (AssertionError "Kernel size should be odd for 'same' conv.")) /\
  (Z.Odd conv_kernel_size ->
   subsampling_factor <= 1 \/ (0 < conv_kernel_size /\ 0 < n_units) ->
   exists m,
     Conv1dSubsampler_init subsampling_factor n_units conv_kernel_size = OK m /\
     conv1d_subsampling_factor m = subsampling_factor).
Proof.
  unfold Conv1dSubsampler_init. split.
  - intros [k Hk].
    assert ((conv_kernel_size mod 2 =? 1) = false) as ->; [|reflexivity].
    apply Z.eqb_neq. subst. Z.to_euclidean_division_equations. lia.
  - intros [k Hk] Hcase.
    assert ((conv_kernel_size mod 2 =? 1) = true) as ->.
    { apply Z.eqb_eq. subst. Z.to_euclidean_division_equations. lia. }
    cbn [negb]. destruct (1 <? subsampling_factor) eqn:Ef.
    + apply Z.ltb_lt in Ef. destruct Hcase as [Hf|[Hk0 Hn]]; [lia|].
      destruct (nn_Conv1d_valid n_units n_units conv_kernel_size 1
                  ((conv_kernel_size - 1) / 2)) as [c Hc]; try lia.
      { subst. Z.to_euclidean_division_equations. lia. }
      rewrite Hc. eexists. split; reflexivity.
    + eexists. split; reflexivity.
Qed.

End SubsamplingProperties.

(** *** Concrete runs of the subsamplers *)

Lemma concat_ZNN_built :
  ConcatSubsampler_init (NN := ZNN) 2 1 = OK (concat_ZNN 2) /\
  ConcatSubsampler_init (NN := ZNN) 3 1 = OK (concat_ZNN 3) /\
  ConcatSubsampler_init (NN := ZNN) 1 4 = OK (concat_ZNN 1).
Proof. repeat split. Qed.

Lemma ConcatSubsampler_forward_lens_witness :
  exists xs' xlens',
    ConcatSubsampler_forward (concat_ZNN 2) batch_7_1 [7; 1]
    = OK (xs', xlens') /\
    nth_error xlens' 0 = Some 3 /\ nth_error xlens' 1 = Some 1.
Proof.
  destruct (ConcatSubsampler_forward_lens (NN := ZNN) (concat_ZNN 2) tt
              batch_7_1 [7; 1])
    as (xs' & xlens' & Hf & _ & Hn);
    [reflexivity | reflexivity | vm_compute; lia |].
  exists xs', xlens'. split; [exact Hf|]. split.
  - destruct (Hn 0%nat 7 eq_refl) as (q & _ & _ & _ & H). now apply H.
  - destruct (Hn 1%nat 1 eq_refl) as (q & Hq & H & _).
    rewrite H. f_equal. unfold is_floor in Hq.
    change (concat_subsampling_factor (concat_ZNN 2)) with 2 in Hq.
    lia.
Defined.

(** C1 fails as stated: with factor 2, the sample of length 1 in a batch
    with a sample of length 7 gets length 1, and floor(1 / 2) is 0. *)
Lemma ConcatSubsampler_forward_not_floor :
  ~ (forall (m : ConcatSubsampler) (xs xs' : tensor Z) (xlens xlens' : list Z)
            (i : nat) (L : Z),
        1 < concat_subsampling_factor m ->
        nth_error xlens i = Some L -> 1 <= L ->
        ConcatSubsampler_forward m xs xlens = OK (xs', xlens') ->
        nth_error xlens' i = Some (L / concat_subsampling_factor m)).
Proof.
  intros H.
  specialize (H (concat_ZNN 2) batch_7_1
                [[[3]; [7]; [11]]; [[9]; [0]; [0]]] [7; 1] [3; 1] 1%nat 1).
  cbn in H. specialize (H ltac:(lia) eq_refl ltac:(lia) eq_refl).
  discriminate H.
Qed.

Lemma DropSubsampler_forward_lens_witness :
  exists xs',
    DropSubsampler_forward (DropSubsampler_init 3) batch_7_1 [1; 2; 3; 4]
    = OK (xs', [1; 1; 1; 2]).
Proof.
  destruct (DropSubsampler_forward_lens (DropSubsampler_init 3) batch_7_1
              [1; 2; 3; 4])
    as (xs' & xlens' & Hf & _ & _ & Hs); [reflexivity|].
  exists xs'. rewrite Hf, (Hs eq_refl eq_refl). reflexivity.
Defined.

Lemma subsamplers_factor_1_identity_witness :
  ConcatSubsampler_forward (concat_ZNN 1) batch_7_1 [7; 1]
  = OK (batch_7_1, [7; 1]) /\
  Conv1dSubsampler_forward
    {| conv1d_subsampling_factor := 1; conv1d_conv1d := None;
       conv1d_pool := None |} batch_7_1 [7; 1]
  = OK (batch_7_1, [7; 1]) /\
  DropSubsampler_forward (DropSubsampler_init 1) batch_7_1 [7; 1]
  = OK (batch_7_1, [7; 1]) /\
  MaxpoolSubsampler_forward (MaxpoolSubsampler_init 1) batch_7_1 [7; 1]
  = OK (batch_7_1, [7; 1]).
Proof.
  destruct (subsamplers_factor_1_identity
              (concat_ZNN 1)
              {| conv1d_subsampling_factor := 1; conv1d_conv1d := None;
                 conv1d_pool := None |}
              (DropSubsampler_init 1) (MaxpoolSubsampler_init 1)
              batch_7_1 [7; 1]) as (H1 & H2 & H3 & H4).
  split; [apply H1; reflexivity|].
  split; [apply H2; reflexivity|].
  split; [apply H3 | apply H4]; reflexivity.
Defined.

Lemma Conv1dSubsampler_init_kernel_size_witness :
  Conv1dSubsampler_init (NN := ZNN) 2 4 4
  = Raise (AssertionError "Kernel size should be odd for 'same' conv.") /\
  exists m, Conv1dSubsampler_init (NN := ZNN) 2 4 5 = OK m /\
            conv1d_subsampling_factor m = 2.
Proof.
  split.
  - apply (proj1 (Conv1dSubsampler_init_kernel_size 2 4 4)).
    exists 2. reflexivity.
  - apply (proj2 (Conv1dSubsampler_init_kernel_size 2 4 5)).
    + exists 2. reflexivity.
    + right. split; reflexivity.
Defined.

(** C9 fails as stated: the odd kernel size -1 passes the assertion
    (-1 % 2 == 1), and with factor 2 the layer nn.Conv1d is then built and
    rejects it. *)
Lemma Conv1dSubsampler_init_odd_raises :
  ~ (forall (R : Type) (NN : TorchNN R)
            (subsampling_factor n_units conv_kernel_size : Z),
        Z.Odd conv_kernel_size ->
        exists m,
          Conv1dSubsampler_init subsampling_factor n_units conv_kernel_size
          = OK m).
Proof.
  intros H.
  destruct (H Z ZNN 2 4 (-1) ltac:(exists (-1); reflexivity)) as [m Hm].
  unfold Conv1dSubsampler_init in Hm.
  change ((-1) mod 2 =? 1) with true in Hm.
  change (1 <? 2) with true in Hm. cbn [negb] in Hm.
  destruct (nn_Conv1d_negative_kernel 4 4 (-1) 1 ((-1 - 1) / 2)
              ltac:(lia)) as [msg Hr].
  rewrite Hr in Hm. discriminate Hm.
Qed.

(** ** The training loop *)

Lemma Qlt_bool_iff (x y : Q) : Qlt_bool x y = true <-> (x < y)%Q.
Proof.
  unfold Qlt_bool. rewrite negb_true_iff. split.
  - intros H. apply Qnot_le_lt. intros Hle.
    apply Qle_bool_iff in Hle. congruence.
  - intros H. destruct (Qle_bool y x) eqn:E; [|reflexivity].
    apply Qle_bool_iff in E. exfalso. exact (Qlt_not_le _ _ H E).
Qed.

Lemma Qlt_bool_false (x y : Q) : Qlt_bool x y = false <-> ~ (x < y)%Q.
Proof.
  rewrite <- Qlt_bool_iff. destruct (Qlt_bool x y); split; congruence.
Qed.

Lemma count_app (p : event -> bool) (l1 l2 : list event) :
  count p (l1 ++ l2) = (count p l1 + count p l2)%nat.
Proof. unfold count. now rewrite filter_app, length_app. Qed.

Lemma count_map_none {A : Type} (p : event -> bool) (g : A -> event)
    (l : list A) :
  (forall x, p (g x) = false) -> count p (map g l) = 0%nat.
Proof.
  intros Hp. induction l as [|x l IH]; [reflexivity|].
  unfold count in *. cbn. now rewrite Hp.
Qed.

Lemma test_eval_sets_run (ev : evaluator) (sets : list string) (s : state) :
  test_eval_sets ev sets s
  = match ev, sets with
    | eval_char, set :: _ =>
        Exc (TypeError "not enough arguments for format string")
            {| epoch := epoch s; step := step s; lr := lr s;
               metric_dev_best := metric_dev_best s;
               not_improved_epoch := not_improved_epoch s;
               trace := trace s ++ [EvalTest eval_char set] |}
    | _, _ =>
        Ret tt {| epoch := epoch s; step := step s; lr := lr s;
                  metric_dev_best := metric_dev_best s;
                  not_improved_epoch := not_improved_epoch s;
                  trace := trace s ++ map (EvalTest ev) sets |}
    end.
Proof.
  assert (forall s, test_eval_sets ev [] s
                    = Ret tt {| epoch := epoch s; step := step s; lr := lr s;
                                metric_dev_best := metric_dev_best s;
                                not_improved_epoch := not_improved_epoch s;
                                trace := trace s ++ [] |}) as Hnil.
  { intros s0. cbn. unfold ret. rewrite app_nil_r. now destruct s0. }
  destruct ev.
  3: { destruct sets as [|x sets]; [apply Hnil | reflexivity]. }
  all: revert s; induction sets as [|x sets IH]; intros s;
    [apply Hnil
    | cbn [test_eval_sets]; unfold mbind, log; rewrite IH; cbn;
      now rewrite <- app_assoc].
Qed.

(** Symbolic execution of one pass of the loop: unfold the monad, then
    split on every test the pass makes. *)
Ltac fields :=
  cbn [epoch step lr metric_dev_best not_improved_epoch trace res_state] in *.

Ltac exec :=
  unfold iteration, epoch_end, evaluate, report, save_checkpoint, decay_lr,
    mbind, get, put, log, ret, raise, set_epoch, set_step, set_lr,
    set_metric_dev_best, set_not_improved_epoch in *;
  fields.

Ltac branch :=
  match goal with
  | |- context [test_eval_sets ?ev ?l ?s] =>
      rewrite (test_eval_sets_run ev l s)
  | H : context [test_eval_sets ?ev ?l ?s] |- _ =>
      rewrite (test_eval_sets_run ev l s) in H
  | H : context [if ?b then _ else _] |- _ => destruct b eqn:?
  | H : context [match select_evaluator ?l with _ => _ end] |- _ =>
      destruct (select_evaluator l) eqn:?
  | H : context [match ?e with eval_word => _ | _ => _ end] |- _ =>
      destruct e
  | H : context [match load_eval_sets ?a with _ => _ end] |- _ =>
      destruct (load_eval_sets a) eqn:?
  | |- context [if ?b then _ else _] => destruct b eqn:?
  | |- context [match select_evaluator ?l with _ => _ end] =>
      destruct (select_evaluator l) eqn:?
  | |- context [match ?e with eval_word => _ | _ => _ end] => destruct e
  | |- context [match load_eval_sets ?a with _ => _ end] =>
      destruct (load_eval_sets a) eqn:?
  end; fields.

Ltac counts :=
  repeat rewrite count_app in *;
  repeat (rewrite count_map_none in * by reflexivity);
  change (count ?p [?e]) with (if p e then 1%nat else 0%nat) in *;
  change (count ?p []) with 0%nat in *;
  cbn [is_update is_checkpoint is_sgd] in *.

Ltac tests :=
  repeat match goal with
         | H : (_ <? _) = true |- _ => apply Z.ltb_lt in H
         | H : (_ <? _) = false |- _ => apply Z.ltb_ge in H
         | H : (_ =? _) = true |- _ => apply Z.eqb_eq in H
         | H : (_ =? _) = false |- _ => apply Z.eqb_neq in H
         | H : Qlt_bool _ _ = true |- _ => apply Qlt_bool_iff in H
         | H : Qlt_bool _ _ = false |- _ => apply Qlt_bool_false in H
         end.

Ltac inv_res :=
  repeat match goal with
         | H : Ret _ _ = Ret _ _ |- _ => inversion H; subst; clear H
         | H : Exc _ _ = Exc _ _ |- _ => inversion H; subst; clear H
         | H : Ret _ _ = Exc _ _ |- _ => discriminate H
         | H : Exc _ _ = Ret _ _ |- _ => discriminate H
         end; fields.

Lemma reduce_batch_size_keeps (a : args) :
  ngpus (reduce_batch_size a) = ngpus a /\
  label_type (reduce_batch_size a) = label_type a /\
  saved_model (reduce_batch_size a) = saved_model a /\
  eval_start_epoch (reduce_batch_size a) = eval_start_epoch a /\
  convert_to_sgd_epoch (reduce_batch_size a) = convert_to_sgd_epoch a.
Proof. unfold reduce_batch_size. destruct (1 <? ngpus a); auto. Qed.

Lemma setup_counts (a : args) :
  count is_update (setup a) = 0%nat /\
  count is_checkpoint (setup a) = 0%nat /\
  count is_sgd (setup a) = 0%nat.
Proof.
  unfold setup.
  repeat split; rewrite !count_app, count_map_none by reflexivity;
    reflexivity.
Qed.

Lemma datasets_counts (a : args) :
  count is_update (datasets a) = 0%nat /\
  count is_checkpoint (datasets a) = 0%nat /\
  count is_sgd (datasets a) = 0%nat.
Proof.
  unfold datasets.
  repeat split; rewrite !count_app, count_map_none by reflexivity;
    reflexivity.
Qed.





(** One pass of the loop that does not raise makes one optimizer update and
    adds ngpus to the step counter. *)
Lemma iteration_step (a : args) (t : tick) (s : state) (c : control)
    (s' : state) :
  iteration a t s = Ret c s' ->
  step s' = step s + ngpus a /\
  count is_update (trace s') = S (count is_update (trace s)).
Proof.
  destruct s. exec. intros H. repeat branch; inv_res; counts; split; lia.
Qed.

Lemma loop_step (a : args) (ticks : list tick) (s s' : state) :
  loop a ticks s = Running s' \/ loop a ticks s = Returned s' ->
  step s' - step s
  = ngpus a * (Z.of_nat (count is_update (trace s'))
               - Z.of_nat (count is_update (trace s))).
Proof.
  revert s. induction ticks as [|t ticks IH]; intros s; cbn [loop].
  - intros [H|H]; inversion H; subst. lia.
  - destruct (iteration a t s) as [[|] s1|e s1] eqn:E.
    + intros H. specialize (IH s1 H).
      destruct (iteration_step a t s _ s1 E) as [Hs Hc]. nia.
    + destruct (iteration_step a t s _ s1 E) as [Hs Hc].
      intros [H|H]; inversion H; subst. nia.
    + intros [H|H]; discriminate H.
Qed.

(** C3 (as amended): whatever the number of devices, each pass of the loop
    makes one optimizer update and adds ngpus (not 1) to the step counter,
    so that in a run that has not raised the step counter is ngpus times the
    number of updates: it grows strictly with every update when ngpus >= 1
    and counts the updates one by one exactly when ngpus = 1. *)
Theorem step_counter_adds_ngpus (a : args) :
  (forall t s c s', iteration a t s = Ret c s' ->
     step s' = step s + ngpus a /\
     count is_update (trace s') = S (count is_update (trace s)) /\
     (1 <= ngpus a -> step s < step s')) /\
  (forall ticks s,
     train a ticks = Running s \/ train a ticks = Returned s ->
     step s = ngpus a * Z.of_nat (count is_update (trace s)) /\
     (ngpus a = 1 -> step s = Z.of_nat (count is_update (trace s)))).
Proof.
  split.
  - intros t s c s' H. destruct (iteration_step a t s c s' H) as [Hs Hc].
    repeat split; auto. lia.
  - intros ticks s H. unfold train in H.
    destruct (reduce_batch_size_keeps a) as (Hn & _).
    destruct (Seq2seq_init (reduce_batch_size a));
      [|destruct H as [H|H]; discriminate H].
    destruct (saved_model (reduce_batch_size a)).
    + destruct H as [H|H]; discriminate H.
    + apply loop_step in H. rewrite Hn in H.
      destruct (setup_counts (reduce_batch_size a)) as (Hu & _).
      cbn [initial_state step trace] in H. rewrite Hu in H.
      split; [lia|]. intros H1. rewrite H1 in H. lia.
Qed.

Lemma step_counter_adds_ngpus_witness :
  step (run_state (train cfg_multi [batch_tick; batch_tick; batch_tick]))
  = ngpus cfg_multi
    * Z.of_nat (count is_update
                  (trace (run_state
                            (train cfg_multi
                               [batch_tick; batch_tick; batch_tick])))).
Proof.
  apply (proj2 (step_counter_adds_ngpus cfg_multi)
           [batch_tick; batch_tick; batch_tick]).
  left. vm_compute. reflexivity.
Defined.

(** C3 fails as stated: with two devices one pass of the loop, which makes
    one update, moves the step counter from 0 to 2. *)
Lemma step_counter_not_by_one :
  ~ (forall (a : args) (t : tick) (s s' : state) (c : control),
        iteration a t s = Ret c s' -> step s' = step s + 1).
Proof.
  intros H.
  assert (iteration cfg_multi batch_tick (initial_state cfg_multi)
          = Ret Continue
              (res_state (iteration cfg_multi batch_tick
                            (initial_state cfg_multi)))) as E
      by (vm_compute; reflexivity).
  apply H in E. vm_compute in E. discriminate E.
Qed.

(** C2 (as amended): at the end of an epoch before eval_start_epoch the loop
    writes a checkpoint, whatever the label type; at the end of an epoch at
    or past eval_start_epoch it writes one exactly when the dev metric is
    strictly better than the best recorded value, and none on an epoch that
    does not improve.  (The checkpoint of an improving epoch is written
    before the evaluation sets are decoded: it is there also when that
    decoding raises, which happens only for the character evaluator with an
    evaluation set loaded.) *)
Theorem checkpoint_when_improved (a : args) (t : tick) (s : state) :
  is_new_epoch t = true ->
  print_step a <> 0 ->
  (epoch s < eval_start_epoch a ->
   exists c s',
     iteration a t s = Ret c s' /\
     count is_checkpoint (trace s') = S (count is_checkpoint (trace s)) /\
     In (SaveCheckpoint (epoch s) (step s + ngpus a) (lr s)
                        (metric_dev_best s)) (trace s')) /\
  (forall ev,
     eval_start_epoch a <= epoch s ->
     select_evaluator (label_type a) = Some ev ->
     ((metric_dev t < metric_dev_best s)%Q ->
      count is_checkpoint (trace (res_state (iteration a t s)))
      = S (count is_checkpoint (trace s)) /\
      In (SaveCheckpoint (epoch s) (step s + ngpus a) (decayed_lr t)
                         (metric_dev t))
         (trace (res_state (iteration a t s))) /\
      (ev <> eval_char \/ load_eval_sets a = [] ->
       exists c s', iteration a t s = Ret c s')) /\
     (~ (metric_dev t < metric_dev_best s)%Q ->
      exists c s',
        iteration a t s = Ret c s' /\
        count is_checkpoint (trace s') = count is_checkpoint (trace s))).
Proof.
  intros Hn Hp. destruct s. exec. rewrite Hn.
  apply Z.eqb_neq in Hp. rewrite Hp.
  destruct ((step0 + 1) mod print_step a =? 0); fields.
  all: split.
  1,3: intros He; apply Z.ltb_lt in He; rewrite He; fields;
    repeat branch;
    eexists; eexists; (split; [reflexivity|]); fields; counts;
    (split; [lia|]);
    repeat rewrite in_app_iff; cbn [In]; auto 10.
  all: intros ev He Hev; apply Z.ltb_ge in He; rewrite He, Hev; fields.
  all: split; intros Hm.
  1,3: apply Qlt_bool_iff in Hm; rewrite Hm; fields;
    repeat branch; fields; counts;
    (split;
     [lia
     |split;
      [repeat rewrite in_app_iff; cbn [In]; auto 10
      |try (intros _; eexists; eexists; reflexivity);
       try (intros [H|H]; congruence)]]).
  all: apply Qlt_bool_false in Hm; rewrite Hm; fields;
    repeat branch;
    eexists; eexists; (split; [reflexivity|]); fields; counts; lia.
Qed.

Lemma checkpoint_when_improved_witness :
  count is_checkpoint
    (trace (res_state (iteration cfg_single (epoch_tick 20)
                         (initial_state cfg_single))))
  = S (count is_checkpoint (trace (initial_state cfg_single))).
Proof.
  pose proof (checkpoint_when_improved cfg_single (epoch_tick 20)
                (initial_state cfg_single) eq_refl
                ltac:(vm_compute; discriminate)) as [_ H].
  specialize (H eval_phone ltac:(vm_compute; discriminate) eq_refl).
  destruct H as [H _].
  destruct H as [H _]; [unfold Qlt; vm_compute; reflexivity | exact H].
Defined.

(** C2 fails as stated: at the end of the first epoch, with evaluation
    started and a dev metric of 100 that does not beat the initial best of
    100, the pass writes no checkpoint. *)
Lemma checkpoint_not_every_epoch :
  ~ (forall (a : args) (t : tick) (s s' : state) (c : control),
        is_new_epoch t = true ->
        eval_start_epoch a <= epoch s ->
        iteration a t s = Ret c s' ->
        count is_checkpoint (trace s')
        = S (count is_checkpoint (trace s))).
Proof.
  intros H.
  assert (iteration cfg_single (epoch_tick 100) (initial_state cfg_single)
          = Ret Continue
              (res_state (iteration cfg_single (epoch_tick 100)
                            (initial_state cfg_single)))) as E
      by (vm_compute; reflexivity).
  apply H in E; [|reflexivity|vm_compute; discriminate].
  vm_compute in E. discriminate E.
Qed.

(** C4 (as amended): at the end of an epoch on which the validation
    evaluation runs, the non-improvement counter becomes 0 if the dev metric
    is strictly better than the best so far and grows by exactly 1
    otherwise; when the pass returns, the loop is left at that epoch exactly
    when the counter then equals not_improved_patient_epoch or the epoch is
    num_epochs, so it never goes on with the counter equal to the patience,
    and it also stops at the last epoch with the counter below it.  The pass
    returns on every epoch that does not improve, and on an improving one
    unless the character evaluator has an evaluation set to decode. *)
Theorem non_improvement_counter (a : args) (t : tick) (s : state)
    (ev : evaluator) :
  is_new_epoch t = true ->
  print_step a <> 0 ->
  select_evaluator (label_type a) = Some ev ->
  eval_start_epoch a <= epoch s ->
  ((metric_dev t < metric_dev_best s)%Q ->
   not_improved_epoch (res_state (iteration a t s)) = 0) /\
  (~ (metric_dev t < metric_dev_best s)%Q ->
   not_improved_epoch (res_state (iteration a t s))
   = not_improved_epoch s + 1) /\
  (forall c s',
     iteration a t s = Ret c s' ->
     (c = Break <->
      not_improved_epoch s' = not_improved_patient_epoch a \/
      epoch s = num_epochs a) /\
     (c = Continue ->
      not_improved_epoch s' <> not_improved_patient_epoch a)) /\
  (ev <> eval_char \/ load_eval_sets a = [] \/
   ~ (metric_dev t < metric_dev_best s)%Q ->
   exists c s', iteration a t s = Ret c s').
Proof.
  intros Hn Hp Hev He. destruct s. exec. rewrite Hn, Hev.
  apply Z.eqb_neq in Hp. rewrite Hp.
  repeat branch; tests; try lia.
  all: split; [intros Hm; try reflexivity; try contradiction|].
  all: split; [intros Hm; try reflexivity; try contradiction|].
  all: split.
  all: try (intros c s' H; discriminate H).
  all: try (intros c s' H; inv_res;
            split; [split; [intros; try discriminate; auto
                           |intros [H|H]; try reflexivity; try contradiction;
                            try lia]
                   |intros; try discriminate; try lia; auto]).
  all: try (intros _; eexists; eexists; reflexivity).
  all: intros [H|[H|H]]; try congruence; try contradiction.
Qed.

Lemma non_improvement_counter_witness :
  not_improved_epoch
    (res_state (iteration cfg_single (epoch_tick 100)
                  (initial_state cfg_single)))
  = not_improved_epoch (initial_state cfg_single) + 1.
Proof.
  pose proof (non_improvement_counter cfg_single (epoch_tick 100)
                (initial_state cfg_single) eval_phone eq_refl
                ltac:(vm_compute; discriminate) eq_refl
                ltac:(vm_compute; discriminate)) as (_ & H & _).
  apply H. unfold Qlt. vm_compute. discriminate.
Defined.

(** C4 fails as stated: with num_epochs = 1 and a patience of 5, the loop
    is left at the end of the first epoch, on which the metric improved and
    the counter is 0. *)
Lemma loop_stops_below_patience :
  ~ (forall (a : args) (t : tick) (s s' : state) (c : control),
        is_new_epoch t = true ->
        eval_start_epoch a <= epoch s ->
        iteration a t s = Ret c s' ->
        (c = Break <->
         not_improved_epoch s' = not_improved_patient_epoch a)).
Proof.
  intros H.
  assert (iteration cfg_one_epoch (epoch_tick 20) (initial_state cfg_one_epoch)
          = Ret Break
              (res_state (iteration cfg_one_epoch (epoch_tick 20)
                            (initial_state cfg_one_epoch)))) as E
      by (vm_compute; reflexivity).
  apply H in E; [|reflexivity|vm_compute; discriminate].
  apply proj1 in E. specialize (E eq_refl).
  vm_compute in E. discriminate E.
Qed.

(** A pass raises ValueError only from the evaluation at the end of an epoch
    at or past eval_start_epoch, with the label type as its message and after
    the update of the pass. *)
Lemma iteration_ValueError (a : args) (t : tick) (s : state) (msg : string)
    (s' : state) :
  iteration a t s = Exc (ValueError msg) s' ->
  msg = label_type a /\
  is_new_epoch t = true /\
  eval_start_epoch a <= epoch s /\
  epoch s' = epoch s /\
  select_evaluator (label_type a) = None /\
  count is_update (trace s') = S (count is_update (trace s)).
Proof.
  destruct s. exec. intros H. repeat branch; inv_res; counts.
  all: tests.
  all: repeat split; auto; lia.
Qed.

Lemma loop_ValueError (a : args) (ticks : list tick) (s : state)
    (msg : string) (s' : state) :
  loop a ticks s = Failed (ValueError msg) s' ->
  msg = label_type a /\
  eval_start_epoch a <= epoch s' /\
  (1 <= count is_update (trace s'))%nat.
Proof.
  revert s. induction ticks as [|t ticks IH]; intros s; cbn [loop].
  - discriminate.
  - destruct (iteration a t s) as [[|] s1|e s1] eqn:E.
    + apply IH.
    + discriminate.
    + intros H. inversion H; subst.
      destruct (iteration_ValueError a t s msg s' E)
        as (Hm & _ & He & Hs & _ & Hc).
      repeat split; auto; lia.
Qed.

(** C5: with a label type that is none of word, wordpiece, char-like and
    phone-like, train raises ValueError carrying the label type when the
    model is constructed from the configuration: the loop is not entered, so
    no training step has run, whatever the collaborators would have answered.
    (A pass of the loop that reaches the evaluation with such a label type
    raises the same error itself.) *)
Theorem unknown_label_type_raises (a : args) (ticks : list tick) :
  select_evaluator (label_type a) = None ->
  (exists s,
     train a ticks = Failed (ValueError (label_type a)) s /\
     count is_update (trace s) = 0%nat /\
     trace s = datasets (reduce_batch_size a)) /\
  (forall t s, print_step a <> 0 -> is_new_epoch t = true ->
     eval_start_epoch a <= epoch s ->
     exists s', iteration a t s = Exc (ValueError (label_type a)) s').
Proof.
  intros Hev. split.
  - unfold train, Seq2seq_init.
    destruct (reduce_batch_size_keeps a) as (_ & Hl & _).
    rewrite Hl, Hev. eexists. split; [reflexivity|].
    cbn [construction_state trace]. split; [|reflexivity].
    unfold datasets. rewrite count_app, count_map_none by reflexivity.
    reflexivity.
  - intros t s Hp Hn He. destruct s. exec. rewrite Hn, Hev.
    apply Z.eqb_neq in Hp. rewrite Hp. fields.
    repeat branch; tests; try lia.
    all: eexists; reflexivity.
Qed.

Lemma unknown_label_type_raises_witness :
  exists s,
    train cfg_unknown_label [batch_tick; epoch_tick 20]
    = Failed (ValueError "syllable") s /\
    count is_update (trace s) = 0%nat.
Proof.
  destruct (proj1 (unknown_label_type_raises cfg_unknown_label
                     [batch_tick; epoch_tick 20] eq_refl))
    as (s & Ht & Hc & _).
  exists s. split; [exact Ht | exact Hc].
Defined.

(** The switch to SGD has happened at most once, and once it has happened
    the epoch counter is past convert_to_sgd_epoch. *)
Lemma iteration_sgd_inv (a : args) (t : tick) (s : state) :
  sgd_inv a s ->
  match iteration a t s with
  | Ret Continue s' => sgd_inv a s'
  | Ret Break s' | Exc _ s' => (count is_sgd (trace s') <= 1)%nat
  end.
Proof.
  unfold sgd_inv. destruct s. fields. intros Hs. exec. repeat branch.
  all: counts.
  all: tests.
  all: lia.
Qed.

Lemma loop_sgd_inv (a : args) (ticks : list tick) (s : state) :
  sgd_inv a s ->
  (count is_sgd (trace (run_state (loop a ticks s))) <= 1)%nat.
Proof.
  revert s. induction ticks as [|t ticks IH]; intros s Hs; cbn [loop].
  - cbn. unfold sgd_inv in Hs. lia.
  - pose proof (iteration_sgd_inv a t s Hs) as H.
    destruct (iteration a t s) as [[|] s1|e s1]; cbn [run_state]; auto.
Qed.

(** C6 (as amended): the loop swaps the optimizer to SGD, at the configured
    learning rate, at the end of the epoch numbered convert_to_sgd_epoch
    provided that epoch is at or past eval_start_epoch, the pass returns from
    the evaluation and early stopping does not end the loop there; in any run
    the swap happens at most once, and it does not happen at the end of an
    epoch before eval_start_epoch or of an epoch other than
    convert_to_sgd_epoch.  The pass returns from the evaluation on every
    epoch that does not improve, and on an improving one unless the character
    evaluator has an evaluation set to decode. *)
Theorem convert_to_sgd_at_most_once (a : args) :
  (forall ticks,
     (count is_sgd (trace (run_state (train a ticks))) <= 1)%nat) /\
  (forall t s ev,
     is_new_epoch t = true -> print_step a <> 0 ->
     select_evaluator (label_type a) = Some ev ->
     eval_start_epoch a <= epoch s ->
     epoch s = convert_to_sgd_epoch a ->
     (forall c s',
        iteration a t s = Ret c s' ->
        (not_improved_epoch s' <> not_improved_patient_epoch a ->
         count is_sgd (trace s') = S (count is_sgd (trace s)) /\
         In (SetOptimizerSGD (epoch s) (learning_rate a)) (trace s')) /\
        (not_improved_epoch s' = not_improved_patient_epoch a ->
         c = Break /\ count is_sgd (trace s') = count is_sgd (trace s))) /\
     (ev <> eval_char \/ load_eval_sets a = [] \/
      ~ (metric_dev t < metric_dev_best s)%Q ->
      exists c s', iteration a t s = Ret c s')) /\
  (forall t s,
     epoch s < eval_start_epoch a \/ epoch s <> convert_to_sgd_epoch a ->
     count is_sgd (trace (res_state (iteration a t s)))
     = count is_sgd (trace s)).
Proof.
  split; [|split].
  - intros ticks. unfold train.
    destruct (Seq2seq_init (reduce_batch_size a)).
    2: { cbn [run_state construction_state trace].
         destruct (datasets_counts (reduce_batch_size a)) as (_ & _ & H).
         lia. }
    destruct (saved_model (reduce_batch_size a)).
    + cbn [run_state initial_state trace].
      destruct (setup_counts (reduce_batch_size a)) as (_ & _ & H). lia.
    + destruct (reduce_batch_size_keeps a) as (_ & _ & _ & _ & Hc).
      pose proof (loop_sgd_inv (reduce_batch_size a) ticks
                    (initial_state (reduce_batch_size a))) as H.
      apply H. left. cbn [initial_state trace].
      apply (setup_counts (reduce_batch_size a)).
  - intros t s ev Hn Hp Hev He Hc. destruct s. exec. rewrite Hn, Hev.
    apply Z.eqb_neq in Hp. rewrite Hp. fields.
    repeat branch; tests; try lia.
    all: split.
    all: try (intros c s' H; discriminate H).
    all: try (intros c s' H; inv_res; counts;
              split; intros;
              [first [lia | contradiction
                     | split;
                       [lia | repeat rewrite in_app_iff; cbn [In]; auto 10]]
              |first [lia | contradiction | split; [reflexivity | lia]]]).
    all: try (intros _; eexists; eexists; reflexivity).
    all: intros [H|[H|H]]; try congruence; try contradiction.
  - intros t s Hs. destruct s. exec. repeat branch.
    all: counts.
    all: tests.
    all: lia.
Qed.

Lemma convert_to_sgd_at_most_once_witness :
  count is_sgd
    (trace (res_state
              (iteration cfg_single (epoch_tick 20)
                 {| epoch := 2; step := 8; lr := 1 # 1000;
                    metric_dev_best := 100; not_improved_epoch := 0;
                    trace := [] |})))
  = 1%nat.
Proof.
  pose proof (proj1 (proj2 (convert_to_sgd_at_most_once cfg_single))
                (epoch_tick 20)
                {| epoch := 2; step := 8; lr := 1 # 1000;
                   metric_dev_best := 100; not_improved_epoch := 0;
                   trace := [] |} eval_phone eq_refl
                ltac:(vm_compute; discriminate) eq_refl
                ltac:(vm_compute; discriminate) eq_refl) as [H _].
  specialize (H Continue _ ltac:(vm_compute; reflexivity)).
  destruct H as [H _].
  destruct H as [H _]; [vm_compute; discriminate | exact H].
Defined.

(** C6 fails as stated: with convert_to_sgd_epoch = 1 and
    eval_start_epoch = 2, the pass that ends epoch 1 only writes a checkpoint
    and the optimizer is not swapped. *)
Lemma convert_to_sgd_skipped :
  ~ (forall (a : args) (t : tick) (s s' : state) (c : control),
        is_new_epoch t = true ->
        epoch s = convert_to_sgd_epoch a ->
        iteration a t s = Ret c s' ->
        count is_sgd (trace s') = S (count is_sgd (trace s))).
Proof.
  intros H.
  assert (iteration cfg_early_sgd (epoch_tick 20) (initial_state cfg_early_sgd)
          = Ret Continue
              (res_state (iteration cfg_early_sgd (epoch_tick 20)
                            (initial_state cfg_early_sgd)))) as E
      by (vm_compute; reflexivity).
  apply H in E; [|reflexivity|reflexivity].
  vm_compute in E. discriminate E.
Qed.

(** * Further properties of the subsamplers *)

Lemma div_succ (f n : Z) :
  0 < f -> 0 <= n ->
  (n + 1) / f = n / f + (if (n + 1) mod f =? 0 then 1 else 0).
Proof.
  intros Hf Hn. destruct ((n + 1) mod f =? 0) eqn:E.
  - apply Z.eqb_eq in E. Z.to_euclidean_division_equations. nia.
  - apply Z.eqb_neq in E. Z.to_euclidean_division_equations. nia.
Qed.

(** The steps that close a group of [f] frames are f-1, 2f-1, ...: one for
    each full group. *)
Lemma concat_steps_closed (f : Z) (T : nat) :
  0 < f ->
  concat_steps f T
  = map (fun k => ((k + 1) * Z.to_nat f - 1)%nat)
        (seq 0 (Z.to_nat (Z.of_nat T / f))).
Proof.
  intros Hf. induction T as [|T IH].
  - rewrite Z.div_0_l by lia. reflexivity.
  - unfold concat_steps in *. rewrite seq_S, filter_app, IH. cbn [filter plus].
    replace (Z.of_nat (S T)) with (Z.of_nat T + 1) by lia.
    rewrite (div_succ f (Z.of_nat T) Hf ltac:(lia)).
    pose proof (Z.div_pos (Z.of_nat T) f ltac:(lia) Hf) as Hq.
    destruct ((Z.of_nat T + 1) mod f =? 0) eqn:E.
    + rewrite Z2Nat.inj_add, seq_app, map_app by lia.
      change (Z.to_nat 1) with 1%nat. cbn [seq map plus].
      do 2 f_equal. apply Z.eqb_eq in E.
      assert (Z.of_nat T + 1 = f * (Z.of_nat T / f + 1)) as HT.
      { pose proof (div_succ f (Z.of_nat T) Hf ltac:(lia)) as D.
        pose proof (Z.div_mod (Z.of_nat T + 1) f ltac:(lia)) as M.
        rewrite E in D, M. cbn [Z.eqb] in D. rewrite D in M. lia. }
      remember (Z.to_nat (Z.of_nat T / f)) as q eqn:Eq.
      remember (Z.to_nat f) as f' eqn:Ef.
      assert (Z.of_nat T / f = Z.of_nat q) as Hq' by lia.
      assert (f = Z.of_nat f') as Hf' by lia.
      rewrite Hq' in HT. rewrite Hf' in HT. clear - HT. nia.
    + rewrite Z.add_0_r, app_nil_r. reflexivity.
Qed.


Section SubsamplingData.
Context {R : Type} `{NN : TorchNN R}.

(** X1: for a factor f > 1 and a batch of T >= f time steps,
    ConcatSubsampler.forward keeps the samples of the batch and turns each
    into floor(T / f) frames, the k-th of which is the projection (with
    relu) of the input frames k*f, ..., k*f + f - 1 side by side; the
    trailing T mod f frames do not reach the output. *)
Theorem ConcatSubsampler_forward_groups
    (m : ConcatSubsampler) (proj : Linear) (xs : tensor R) (xlens : list Z) :
  1 < concat_subsampling_factor m ->
  concat_proj m = Some proj ->
  (Z.to_nat (concat_subsampling_factor m) <= size1 xs)%nat ->
  exists xs' xlens',
    ConcatSubsampler_forward m xs xlens = OK (xs', xlens') /\
    xs' = map (fun x =>
                 map (fun k =>
                        map relu
                          (apply_Linear proj
                             (concat
                                (firstn (Z.to_nat (concat_subsampling_factor m))
                                   (skipn (k * Z.to_nat (concat_subsampling_factor m)) x)))))
                     (seq 0 (Z.to_nat (Z.of_nat (size1 xs)
                                       / concat_subsampling_factor m))))
              xs /\
    Forall (fun x' => Z.of_nat (length x')
                      = Z.of_nat (size1 xs) / concat_subsampling_factor m) xs'.
Proof.
  intros Hf Hp HT. unfold ConcatSubsampler_forward.
  set (f := concat_subsampling_factor m) in *.
  destruct (f =? 1) eqn:E1; [apply Z.eqb_eq in E1; lia|].
  destruct (f =? 0) eqn:E0; [apply Z.eqb_eq in E0; lia|].
  cbn [andb]. destruct (f <? 1) eqn:E2; [apply Z.ltb_lt in E2; lia|].
  cbn [orb]. rewrite (concat_steps_nonempty f (size1 xs) Hf HT), Hp.
  eexists; eexists; split; [reflexivity|].
  rewrite concat_steps_closed by lia.
  assert (forall x : list (list R),
             map (fun t => map relu (apply_Linear proj (concat_frames f x t)))
                 (map (fun k => ((k + 1) * Z.to_nat f - 1)%nat)
                      (seq 0 (Z.to_nat (Z.of_nat (size1 xs) / f))))
             = map (fun k => map relu
                               (apply_Linear proj
                                  (concat (firstn (Z.to_nat f)
                                             (skipn (k * Z.to_nat f) x)))))
                   (seq 0 (Z.to_nat (Z.of_nat (size1 xs) / f)))) as Hx.
  { intros x. rewrite map_map. apply map_ext. intros k.
    unfold concat_frames. do 4 f_equal.
    assert (1 <= Z.to_nat f)%nat by lia.
    rewrite Nat.mul_add_distr_r, Nat.mul_1_l. f_equal. lia. }
  split.
  - apply map_ext. intros x. apply Hx.
  - apply Forall_forall. intros x' Hin. apply in_map_iff in Hin.
    destruct Hin as (x & <- & _).
    rewrite !length_map, length_seq, Z2Nat.id; [reflexivity|].
    apply Z.div_pos; lia.
Qed.

(** X2: for a factor f > 1 and a batch of T >= f time steps whose lengths
    are between 1 and T, the lengths that ConcatSubsampler.forward returns
    are between 1 and the number of frames of the output, and none is longer
    than the input length it comes from. *)
Theorem ConcatSubsampler_forward_lens_fit
    (m : ConcatSubsampler) (proj : Linear) (xs : tensor R) (xlens : list Z) :
  1 < concat_subsampling_factor m ->
  concat_proj m = Some proj ->
  (Z.to_nat (concat_subsampling_factor m) <= size1 xs)%nat ->
  Forall (fun L => 1 <= L <= Z.of_nat (size1 xs)) xlens ->
  exists xs' xlens',
    ConcatSubsampler_forward m xs xlens = OK (xs', xlens') /\
    Forall (fun L' => 1 <= L' <= Z.of_nat (size1 xs')) xlens' /\
    Forall2 (fun L L' => L' <= L) xlens xlens'.
Proof.
  intros Hf Hp HT HL. unfold ConcatSubsampler_forward.
  set (f := concat_subsampling_factor m) in *.
  destruct (f =? 1) eqn:E1; [apply Z.eqb_eq in E1; lia|].
  destruct (f =? 0) eqn:E0; [apply Z.eqb_eq in E0; lia|].
  cbn [andb]. destruct (f <? 1) eqn:E2; [apply Z.ltb_lt in E2; lia|].
  cbn [orb]. rewrite (concat_steps_nonempty f (size1 xs) Hf HT), Hp.
  eexists; eexists; split; [reflexivity|].
  assert (Z.of_nat
            (size1 (map (fun x =>
                           map (fun t => map relu
                                           (apply_Linear proj (concat_frames f x t)))
                               (concat_steps f (size1 xs))) xs))
          = Z.of_nat (size1 xs) / f) as HT'.
  { destruct xs as [|x xs]; [cbn in HT; lia|].
    cbn [map size1]. rewrite length_map, concat_steps_closed by lia.
    rewrite length_map, length_seq, Z2Nat.id; [reflexivity|].
    apply Z.div_pos; lia. }
  rewrite HT'. clear HT'. unfold concat_lens.
  assert (1 <= Z.of_nat (size1 xs) / f) as H1.
  { apply Z.div_le_lower_bound; lia. }
  split.
  - apply Forall_map. eapply Forall_impl; [|exact HL].
    cbn beta. intros L [HL1 HL2].
    pose proof (Z.div_le_mono L (Z.of_nat (size1 xs)) f ltac:(lia) HL2). lia.
  - induction HL as [|L xlens [HL1 HL2] HL IH]; cbn [map]; constructor; auto.
    pose proof (Z.div_le_upper_bound L f L ltac:(lia) ltac:(nia)). lia.
Qed.


Lemma stride_aux_nth {A : Type} (k skip : nat) (x : list A) (j : nat) :
  nth_error (stride_aux (S k) skip x) j = nth_error x (skip + j * S k).
Proof.
  revert skip j. induction x as [|a x IH]; intros skip j.
  - cbn [stride_aux]. now rewrite !nth_error_nil.
  - destruct skip as [|s]; cbn [stride_aux].
    + destruct j as [|j]; [reflexivity|].
      cbn [nth_error]. replace (S k - 1)%nat with k by lia. rewrite IH.
      replace (0 + S j * S k)%nat with (S (k + j * S k)) by lia.
      reflexivity.
    + rewrite IH. reflexivity.
Qed.

(** The frames that a stride of f keeps are as many as the ceiling of the
    number of frames over f. *)
Lemma stride_length {A : Type} (f : Z) (x : list A) :
  0 < f -> is_ceiling (Z.of_nat (length x)) f (Z.of_nat (length (stride f x))).
Proof.
  intros Hf. unfold stride.
  destruct (Z.to_nat f) as [|k] eqn:Ek; [lia|].
  assert (f = Z.of_nat (S k)) as -> by lia. clear Ek Hf.
  set (n := length (stride_aux (S k) 0 x)).
  pose proof (stride_aux_nth k 0 x n) as Hn.
  assert (nth_error (stride_aux (S k) 0 x) n = None) as Hnone
      by (apply nth_error_None; unfold n; lia).
  rewrite Hnone in Hn. symmetry in Hn. apply nth_error_None in Hn.
  unfold is_ceiling. split; [|nia].
  destruct n as [|n'] eqn:En; [lia|].
  pose proof (stride_aux_nth k 0 x n') as Hn'.
  assert (nth_error (stride_aux (S k) 0 x) n' <> None) as Hs
      by (apply nth_error_Some; fold n; lia).
  rewrite Hn' in Hs. apply nth_error_Some in Hs. nia.
Qed.

(** X4: for a factor f > 1, DropSubsampler.forward keeps the samples of
    the batch and, in each, the frames 0, f, 2f, ...: frame j of the output
    is frame j*f of the input, and a sample of T frames becomes one of
    ceil(T / f) frames. *)
Theorem DropSubsampler_forward_frames
    (m : DropSubsampler) (xs : tensor R) (xlens : list Z) :
  1 < drop_subsampling_factor m ->
  exists xs' xlens',
    DropSubsampler_forward m xs xlens = OK (xs', xlens') /\
    length xs' = length xs /\
    forall b x, nth_error xs b = Some x ->
      exists x',
        nth_error xs' b = Some x' /\
        (forall j, nth_error x' j
                   = nth_error x (j * Z.to_nat (drop_subsampling_factor m))) /\
        is_ceiling (Z.of_nat (length x)) (drop_subsampling_factor m)
                   (Z.of_nat (length x')).
Proof.
  intros Hf. unfold DropSubsampler_forward.
  set (f := drop_subsampling_factor m) in *.
  destruct (f =? 1) eqn:E1; [apply Z.eqb_eq in E1; lia|].
  destruct (f <? 1) eqn:E2; [apply Z.ltb_lt in E2; lia|].
  eexists; eexists; split; [reflexivity|]. split.
  - now rewrite length_map.
  - intros b x Hb. exists (stride f x). split; [|split].
    + now apply nth_error_map_Some.
    + intros j. unfold stride.
      destruct (Z.to_nat f) as [|k] eqn:Ek; [lia|].
      now rewrite stride_aux_nth.
    + apply stride_length. lia.
Qed.

(** X5: for a factor f > 1 and a batch of T time steps whose lengths are
    between 1 and T, the lengths that DropSubsampler.forward returns are
    between 1 and the number of frames of the output, and none is longer
    than the input length it comes from. *)
Theorem DropSubsampler_forward_lens_fit
    (m : DropSubsampler) (xs : tensor R) (xlens : list Z) :
  1 < drop_subsampling_factor m ->
  Forall (fun L => 1 <= L <= Z.of_nat (size1 xs)) xlens ->
  exists xs' xlens',
    DropSubsampler_forward m xs xlens = OK (xs', xlens') /\
    Forall (fun L' => 1 <= L' <= Z.of_nat (size1 xs')) xlens' /\
    Forall2 (fun L L' => L' <= L) xlens xlens'.
Proof.
  intros Hf HL. unfold DropSubsampler_forward.
  set (f := drop_subsampling_factor m) in *.
  destruct (f =? 1) eqn:E1; [apply Z.eqb_eq in E1; lia|].
  destruct (f <? 1) eqn:E2; [apply Z.ltb_lt in E2; lia|].
  eexists; eexists; split; [reflexivity|].
  assert (is_ceiling (Z.of_nat (size1 xs)) f
            (Z.of_nat (size1 (map (stride f) xs)))) as HT.
  { destruct xs as [|x xs]; cbn [map size1].
    - unfold is_ceiling. cbn. lia.
    - apply stride_length. lia. }
  unfold drop_lens, is_ceiling in *.
  set (T' := Z.of_nat (size1 (map (stride f) xs))) in *.
  split.
  - apply Forall_map. eapply Forall_impl; [|exact HL].
    cbn beta. intros L [HL1 HL2].
    pose proof (math_ceil_div_is_ceiling L f ltac:(lia)) as Hc.
    unfold is_ceiling in Hc. nia.
  - induction HL as [|L xlens [HL1 HL2] HL IH]; cbn [map]; constructor; auto.
    pose proof (math_ceil_div_is_ceiling L f ltac:(lia)) as Hc.
    unfold is_ceiling in Hc. nia.
Qed.

End SubsamplingData.


Lemma ConcatSubsampler_forward_groups_witness :
  exists xlens',
    ConcatSubsampler_forward (concat_ZNN 3) batch_7_1 [7; 1]
    = OK ([[[6]; [15]]; [[9]; [0]]], xlens').
Proof.
  destruct (ConcatSubsampler_forward_groups (NN := ZNN)
              (concat_ZNN 3) tt batch_7_1 [7; 1])
    as (xs' & xlens' & Hf & Hx & _);
    [reflexivity | reflexivity | vm_compute; lia |].
  exists xlens'. rewrite Hf, Hx. reflexivity.
Defined.

Lemma ConcatSubsampler_forward_lens_fit_witness :
  exists xs' xlens',
    ConcatSubsampler_forward (concat_ZNN 3) batch_7_1 [7; 1]
    = OK (xs', xlens') /\
    Forall (fun L' => 1 <= L' <= Z.of_nat (size1 xs')) xlens'.
Proof.
  destruct (ConcatSubsampler_forward_lens_fit (NN := ZNN)
              (concat_ZNN 3) tt batch_7_1 [7; 1])
    as (xs' & xlens' & Hf & Hl & _);
    [reflexivity | reflexivity | vm_compute; lia
     | repeat constructor; vm_compute; discriminate |].
  exists xs', xlens'. split; [exact Hf | exact Hl].
Defined.

Lemma DropSubsampler_forward_frames_witness :
  exists xs' xlens',
    DropSubsampler_forward (DropSubsampler_init 3) batch_7_1 [7; 1]
    = OK (xs', xlens') /\
    length xs' = 2%nat.
Proof.
  destruct (DropSubsampler_forward_frames (DropSubsampler_init 3) batch_7_1
              [7; 1])
    as (xs' & xlens' & Hf & Hb & _); [reflexivity|].
  exists xs', xlens'. split; [exact Hf | exact Hb].
Defined.

Lemma DropSubsampler_forward_lens_fit_witness :
  exists xs' xlens',
    DropSubsampler_forward (DropSubsampler_init 3) batch_7_1 [7; 1]
    = OK (xs', xlens') /\
    Forall (fun L' => 1 <= L' <= Z.of_nat (size1 xs')) xlens'.
Proof.
  destruct (DropSubsampler_forward_lens_fit (DropSubsampler_init 3) batch_7_1
              [7; 1])
    as (xs' & xlens' & Hf & Hl & _);
    [reflexivity | repeat constructor; vm_compute; discriminate |].
  exists xs', xlens'. split; [exact Hf | exact Hl].
Defined.


(** * Further properties of the training loop *)

Lemma reduce_batch_size_keeps_rest (a : args) :
  num_epochs (reduce_batch_size a) = num_epochs a /\
  not_improved_patient_epoch (reduce_batch_size a)
  = not_improved_patient_epoch a /\
  corpus (reduce_batch_size a) = corpus a /\
  eval_sets (reduce_batch_size a) = eval_sets a /\
  learning_rate (reduce_batch_size a) = learning_rate a.
Proof. unfold reduce_batch_size. destruct (1 <? ngpus a); cbn; auto. Qed.

(** An invariant [I] of the passes that go on, with a consequence [Q] that
    also holds where the loop is left, holds along every run. *)
Lemma loop_invariant (a : args) (I Q : state -> Prop) :
  (forall s, I s -> Q s) ->
  (forall t s, I s ->
     match iteration a t s with
     | Ret Continue s' => I s'
     | Ret Break s' | Exc _ s' => Q s'
     end) ->
  forall ticks s, I s ->
    Q (run_state (loop a ticks s)) /\
    (forall s', loop a ticks s = Running s' -> I s').
Proof.
  intros HIQ Hstep. induction ticks as [|t ticks IH]; intros s Hs; cbn [loop].
  - split; [now apply HIQ|]. intros s' H. now inversion H; subst.
  - specialize (Hstep t s Hs).
    destruct (iteration a t s) as [[|] s1|e s1]; cbn [run_state].
    + now apply IH.
    + split; [exact Hstep | discriminate].
    + split; [exact Hstep | discriminate].
Qed.

Lemma train_invariant (a : args) (I Q : state -> Prop) :
  (forall s, I s -> Q s) ->
  (forall t s, I s ->
     match iteration (reduce_batch_size a) t s with
     | Ret Continue s' => I s'
     | Ret Break s' | Exc _ s' => Q s'
     end) ->
  I (initial_state (reduce_batch_size a)) ->
  Q (construction_state (reduce_batch_size a)) ->
  forall ticks,
    Q (run_state (train a ticks)) /\
    (forall s', train a ticks = Running s' -> I s').
Proof.
  intros HIQ Hstep H0 Hc ticks. unfold train.
  destruct (Seq2seq_init (reduce_batch_size a));
    [|cbn [run_state]; split; [exact Hc | discriminate]].
  destruct (saved_model (reduce_batch_size a)).
  - cbn [run_state]. split; [now apply HIQ | discriminate].
  - now apply loop_invariant.
Qed.

(** What one pass does to the epoch counter. *)
Lemma iteration_epoch (a : args) (t : tick) (s : state) :
  match iteration a t s with
  | Ret Continue s' =>
      epoch s' = (if is_new_epoch t then epoch s + 1 else epoch s) /\
      (is_new_epoch t = true -> epoch s <> num_epochs a)
  | Ret Break s' => epoch s' = epoch s /\ is_new_epoch t = true
  | Exc _ s' => epoch s' = epoch s
  end.
Proof.
  destruct s. exec. repeat branch; tests; auto.
  all: split; auto; intros; congruence.
Qed.

Lemma loop_epoch (a : args) (ticks : list tick) (s s' : state) :
  loop a ticks s = Running s' ->
  epoch s' = epoch s + Z.of_nat (epoch_ends ticks) /\
  (epoch s <= num_epochs a -> epoch s' <= num_epochs a).
Proof.
  revert s. induction ticks as [|t ticks IH]; intros s; cbn [loop].
  - intros H. inversion H; subst. unfold epoch_ends. cbn. lia.
  - pose proof (iteration_epoch a t s) as Hi.
    destruct (iteration a t s) as [[|] s1|e s1]; try discriminate.
    intros H. destruct (IH s1 H) as [He Hb]. destruct Hi as [Hi Hn].
    unfold epoch_ends in *. cbn [filter].
    destruct (is_new_epoch t); cbn [length]; split; lia.
Qed.

Lemma train_Running (a : args) (ticks : list tick) (s : state) :
  train a ticks = Running s ->
  loop (reduce_batch_size a) ticks (initial_state (reduce_batch_size a))
  = Running s.
Proof.
  unfold train.
  destruct (Seq2seq_init (reduce_batch_size a)); [|discriminate].
  destruct (saved_model (reduce_batch_size a)); [discriminate | auto].
Qed.

(** X7: as long as train is in its loop, the epoch counter is 1 plus the
    number of passes that ended an epoch (it moves by one at each epoch end
    and at no other pass), and with num_epochs >= 1 it has not passed
    num_epochs. *)
Theorem epoch_counter_counts_epoch_ends (a : args) (ticks : list tick)
    (s : state) :
  train a ticks = Running s ->
  epoch s = 1 + Z.of_nat (epoch_ends ticks) /\
  (1 <= num_epochs a -> epoch s <= num_epochs a).
Proof.
  intros H. apply train_Running, loop_epoch in H.
  destruct (reduce_batch_size_keeps_rest a) as (Hn & _).
  rewrite Hn in H. cbn [initial_state epoch] in H. exact H.
Qed.

Lemma epoch_counter_counts_epoch_ends_witness :
  epoch (run_state (train cfg_single
                      [batch_tick; epoch_tick 20; batch_tick; epoch_tick 30]))
  = 1 + Z.of_nat (epoch_ends
                    [batch_tick; epoch_tick 20; batch_tick; epoch_tick 30]).
Proof.
  apply (epoch_counter_counts_epoch_ends cfg_single
           [batch_tick; epoch_tick 20; batch_tick; epoch_tick 30]).
  vm_compute. reflexivity.
Defined.

(** X8: with num_epochs >= 1, train has left its loop (by returning or by
    raising) once num_epochs passes have ended an epoch: the loop never runs
    past the last epoch. *)
Theorem train_stops_at_num_epochs (a : args) (ticks : list tick) :
  1 <= num_epochs a ->
  num_epochs a <= Z.of_nat (epoch_ends ticks) ->
  forall s, train a ticks <> Running s.
Proof.
  intros H1 Hk s H. apply train_Running, loop_epoch in H.
  destruct (reduce_batch_size_keeps_rest a) as (Hn & _).
  rewrite Hn in H. cbn [initial_state epoch] in H. lia.
Qed.

Lemma train_stops_at_num_epochs_witness :
  train cfg_single [epoch_tick 20; epoch_tick 30; epoch_tick 10; batch_tick]
  <> Running (initial_state cfg_single).
Proof.
  apply train_stops_at_num_epochs; vm_compute; discriminate.
Defined.

(** What one pass does to the best metric. *)
Lemma iteration_best (a : args) (t : tick) (s : state) :
  metric_dev_best (res_state (iteration a t s)) = metric_dev_best s \/
  (metric_dev_best (res_state (iteration a t s)) = metric_dev t /\
   (metric_dev t < metric_dev_best s)%Q /\
   is_new_epoch t = true /\ eval_start_epoch a <= epoch s).
Proof.
  destruct s. exec. repeat branch; tests; auto.
Qed.

(** X9: the best dev metric never grows: a pass of the loop either leaves
    it as it is, or, at the end of an evaluated epoch, replaces it by a
    strictly smaller metric of that epoch; over a whole run it stays at or
    below its initial value 100. *)
Theorem metric_dev_best_never_grows (a : args) :
  (forall t s,
     metric_dev_best (res_state (iteration a t s)) = metric_dev_best s \/
     (metric_dev_best (res_state (iteration a t s)) = metric_dev t /\
      (metric_dev t < metric_dev_best s)%Q /\
      is_new_epoch t = true /\ eval_start_epoch a <= epoch s)) /\
  (forall ticks,
     (metric_dev_best (run_state (train a ticks)) <= 100)%Q).
Proof.
  split; [apply iteration_best|].
  intros ticks.
  apply (train_invariant a (fun s => (metric_dev_best s <= 100)%Q)
           (fun s => (metric_dev_best s <= 100)%Q)); auto.
  - intros t s Hs.
    pose proof (iteration_best (reduce_batch_size a) t s) as Hb.
    destruct (iteration (reduce_batch_size a) t s) as [[|] s1|e s1];
      cbn [res_state] in Hb;
      (destruct Hb as [->|(-> & Hlt & _)];
       [exact Hs | apply Qlt_le_weak; eapply Qlt_le_trans; eauto]).
  - cbn. apply Qle_refl.
  - cbn. apply Qle_refl.
Qed.

(** What one pass does to the non-improvement counter. *)
Lemma iteration_counter (a : args) (t : tick) (s : state) :
  match iteration a t s with
  | Ret Continue s' =>
      (not_improved_epoch s' = not_improved_epoch s \/
       not_improved_epoch s' = 0 \/
       not_improved_epoch s' = not_improved_epoch s + 1) /\
      (not_improved_epoch s' = not_improved_epoch s \/
       not_improved_epoch s' <> not_improved_patient_epoch a)
  | Ret Break s' =>
      not_improved_epoch s' = not_improved_epoch s \/
      not_improved_epoch s' = 0 \/
      not_improved_epoch s' = not_improved_epoch s + 1
  | Exc _ s' =>
      not_improved_epoch s' = not_improved_epoch s \/
      not_improved_epoch s' = 0
  end.
Proof.
  destruct s. exec. repeat branch; tests; auto.
Qed.

(** X10: with a patience of at least 1, the non-improvement counter stays
    between 0 and the patience along every run of train, and is strictly
    below the patience as long as the loop goes on. *)
Theorem not_improved_epoch_bounded (a : args) (ticks : list tick) :
  0 < not_improved_patient_epoch a ->
  0 <= not_improved_epoch (run_state (train a ticks))
  <= not_improved_patient_epoch a /\
  (forall s, train a ticks = Running s ->
             not_improved_epoch s < not_improved_patient_epoch a).
Proof.
  intros Hp.
  destruct (reduce_batch_size_keeps_rest a) as (_ & Hpat & _).
  destruct (train_invariant a
              (fun s => 0 <= not_improved_epoch s
                        < not_improved_patient_epoch a)
              (fun s => 0 <= not_improved_epoch s
                        <= not_improved_patient_epoch a)) with (ticks := ticks)
    as [HQ HI].
  - intros s. lia.
  - intros t s Hs.
    pose proof (iteration_counter (reduce_batch_size a) t s) as Hc.
    rewrite Hpat in Hc.
    destruct (iteration (reduce_batch_size a) t s) as [[|] s1|e s1]; lia.
  - cbn. lia.
  - cbn. lia.
  - split; [exact HQ|]. intros s H. apply HI in H. lia.
Qed.

Lemma not_improved_epoch_bounded_witness :
  0 <= not_improved_epoch
         (run_state (train cfg_single [epoch_tick 100; epoch_tick 100]))
  <= not_improved_patient_epoch cfg_single.
Proof.
  apply (not_improved_epoch_bounded cfg_single
           [epoch_tick 100; epoch_tick 100]).
  vm_compute. reflexivity.
Defined.







Ltac counts_more :=
  repeat rewrite count_app in *;
  repeat (rewrite count_map_none in * by reflexivity);
  change (count ?p [?e]) with (if p e then 1%nat else 0%nat) in *;
  change (count ?p []) with 0%nat in *;
  cbn [is_update is_checkpoint is_sgd is_report is_test is_decay] in *.

Lemma odd_not_multiple_of_even (x p : Z) :
  Z.Even x -> Z.Even p -> p <> 0 -> (x + 1) mod p <> 0.
Proof.
  intros [i Hi] [j Hj] Hp H. subst.
  apply Z.mod_divide in H; [|exact Hp].
  destruct H as [q Hq]. lia.
Qed.

Lemma iteration_no_report (a : args) (t : tick) (s : state) :
  Z.Even (ngpus a) -> Z.Even (print_step a) ->
  Z.Even (step s) /\ count is_report (trace s) = 0%nat ->
  Z.Even (step (res_state (iteration a t s))) /\
  count is_report (trace (res_state (iteration a t s))) = 0%nat.
Proof.
  intros Hn Hp. destruct s. fields. intros [He Hc]. exec.
  assert (Z.Even (step0 + ngpus a)) as He'.
  { destruct He as [i Hi], Hn as [j Hj]. exists (i + j). lia. }
  destruct (print_step a =? 0) eqn:E0; fields;
    [split; [exact He | counts_more; lia]|].
  apply Z.eqb_neq in E0.
  pose proof (odd_not_multiple_of_even step0 (print_step a) He Hp E0) as Hodd.
  apply Z.eqb_neq in Hodd. rewrite Hodd. fields.
  unfold is_true in *.
  repeat branch.
  all: split; [assumption|].
  all: counts_more; lia.
Qed.

(** X12: when the number of GPUs is even and the print interval that
    train ends up with (after its division by the number of GPUs) is even
    too, no pass of the loop ever reports: the step counter moves in steps of
    ngpus from 0, so step + 1 is odd and never a multiple of the interval. *)
Theorem even_print_step_never_reports (a : args) (ticks : list tick) :
  Z.Even (ngpus a) ->
  Z.Even (print_step (reduce_batch_size a)) ->
  count is_report (trace (run_state (train a ticks))) = 0%nat.
Proof.
  intros Hn Hp.
  destruct (reduce_batch_size_keeps a) as (Hng & _).
  apply (train_invariant a
           (fun s => Z.Even (step s) /\ count is_report (trace s) = 0%nat)
           (fun s => count is_report (trace s) = 0%nat)).
  - intros s [_ H]. exact H.
  - intros t s Hs.
    pose proof (iteration_no_report (reduce_batch_size a) t s
                  ltac:(rewrite Hng; exact Hn) Hp Hs) as H.
    destruct (iteration (reduce_batch_size a) t s) as [[|] s1|e s1];
      cbn [res_state] in H; tauto.
  - split; [exists 0; reflexivity|].
    cbn [initial_state trace]. unfold setup.
    rewrite !count_app, count_map_none by reflexivity. reflexivity.
  - cbn [construction_state trace]. unfold datasets.
    rewrite !count_app, count_map_none by reflexivity. reflexivity.
Qed.

Lemma even_print_step_never_reports_witness :
  count is_report
    (trace (run_state (train cfg_multi
                         [batch_tick; batch_tick; epoch_tick 20])))
  = 0%nat.
Proof.
  apply (even_print_step_never_reports cfg_multi
           [batch_tick; batch_tick; epoch_tick 20]).
  - exists 1. reflexivity.
  - exists 50. reflexivity.
Defined.

(** X13: with a recognised label type (so that the model is constructed),
    more than one GPU and a print interval from 0 up to (not including) the
    number of GPUs, the division of the interval by the number of GPUs
    leaves 0, and the first pass of the loop raises ZeroDivisionError right
    after its update, before any checkpoint. *)
Theorem small_print_step_raises (a : args) (t : tick) (ticks : list tick) :
  select_evaluator (label_type a) <> None ->
  1 < ngpus a ->
  0 <= print_step a < ngpus a ->
  saved_model a = None ->
  exists s,
    train a (t :: ticks) = Failed ZeroDivisionError s /\
    trace s = setup (reduce_batch_size a) ++ [Update 0].
Proof.
  intros Hl Hn Hp Hs. unfold train, Seq2seq_init.
  destruct (reduce_batch_size_keeps a) as (_ & Hlab & Hsm & _).
  rewrite Hlab.
  destruct (select_evaluator (label_type a)) as [ev|]; [|congruence].
  rewrite Hsm, Hs. cbn [loop].
  assert (print_step (reduce_batch_size a) = 0) as H0.
  { unfold reduce_batch_size.
    assert ((1 <? ngpus a) = true) as -> by (apply Z.ltb_lt; lia).
    cbn [print_step]. apply Z.div_small. lia. }
  unfold iteration, report, mbind, get, log, raise. fields.
  rewrite H0. cbn [Z.eqb].
  eexists. split; reflexivity.
Qed.

Lemma small_print_step_raises_witness :
  exists s,
    train {| ngpus := 2; batch_size := 50; print_step := 1; corpus := "timit";
             label_type := "phone"; eval_sets := []; saved_model := None;
             learning_rate := 1 # 1000; num_epochs := 3;
             eval_start_epoch := 1; not_improved_patient_epoch := 5;
             convert_to_sgd_epoch := 2 |} [batch_tick]
    = Failed ZeroDivisionError s.
Proof.
  destruct (small_print_step_raises
              {| ngpus := 2; batch_size := 50; print_step := 1;
                 corpus := "timit"; label_type := "phone"; eval_sets := [];
                 saved_model := None; learning_rate := 1 # 1000;
                 num_epochs := 3; eval_start_epoch := 1;
                 not_improved_patient_epoch := 5;
                 convert_to_sgd_epoch := 2 |} batch_tick [])
    as (s & H & _);
    [vm_compute; discriminate | cbn; lia | cbn; lia | reflexivity |].
  exists s. exact H.
Defined.

(** X14: the learning rate that the loop carries changes only through
    lr_controller.decay_lr.  A pass that reaches the evaluation (it ends an
    epoch at or past eval_start_epoch, print_step is not 0 and the label
    type is recognised) calls decay_lr exactly once, improvement or not, and
    carries the rate it returns, whether the pass then returns, switches to
    SGD or raises while the evaluation sets are decoded; every other pass
    (inside an epoch, before eval_start_epoch, or raising before the
    evaluation) does not call it and leaves the rate as it is. *)
Theorem learning_rate_only_decayed (a : args) (t : tick) (s : state) :
  (is_new_epoch t = true /\ eval_start_epoch a <= epoch s /\
   print_step a <> 0 /\ select_evaluator (label_type a) <> None ->
   lr (res_state (iteration a t s)) = decayed_lr t /\
   count is_decay (trace (res_state (iteration a t s)))
   = S (count is_decay (trace s))) /\
  (is_new_epoch t = false \/ epoch s < eval_start_epoch a \/
   print_step a = 0 \/ select_evaluator (label_type a) = None ->
   lr (res_state (iteration a t s)) = lr s /\
   count is_decay (trace (res_state (iteration a t s)))
   = count is_decay (trace s)).
Proof.
  destruct s. exec. repeat branch; tests; counts_more.
  all: split; [intros (H1 & H2 & H3 & H4) | intros [H1|[H2|[H3|H4]]]].
  all: try congruence; try lia.
  all: split; [reflexivity | lia].
Qed.

Lemma learning_rate_only_decayed_witness :
  lr (res_state
        (iteration cfg_single
           {| is_new_epoch := true; metric_dev := 20; decayed_lr := 1 # 2000 |}
           (initial_state cfg_single)))
  = 1 # 2000.
Proof.
  apply (proj1 (learning_rate_only_decayed cfg_single
                  {| is_new_epoch := true; metric_dev := 20;
                     decayed_lr := 1 # 2000 |}
                  (initial_state cfg_single))).
  repeat split; vm_compute; discriminate.
Defined.

Lemma iteration_no_tests (a : args) (t : tick) (s : state) :
  load_eval_sets a = [] ->
  count is_test (trace (res_state (iteration a t s)))
  = count is_test (trace s).
Proof.
  intros He. destruct s. exec. rewrite He. repeat branch.
  all: cbn [map]; counts_more; lia.
Qed.

Lemma load_eval_sets_phone (a : args) :
  contains "phone" (label_type a) = true ->
  corpus a <> "timit"%string ->
  load_eval_sets a = [].
Proof.
  intros Hl Hc. unfold load_eval_sets. rewrite Hl.
  apply String.eqb_neq in Hc. rewrite Hc. cbn.
  induction (eval_sets a) as [|x l IH]; [reflexivity | exact IH].
Qed.

(** X15: with a phone-like label type on a corpus other than timit, train
    loads none of the configured evaluation sets and never decodes one,
    however many epochs improve the dev metric. *)
Theorem phone_labels_skip_eval_sets (a : args) (ticks : list tick) :
  contains "phone" (label_type a) = true ->
  corpus a <> "timit"%string ->
  load_eval_sets (reduce_batch_size a) = [] /\
  count is_test (trace (run_state (train a ticks))) = 0%nat.
Proof.
  intros Hl Hc.
  destruct (reduce_batch_size_keeps a) as (_ & Hlab & _).
  destruct (reduce_batch_size_keeps_rest a) as (_ & _ & Hcor & _).
  assert (load_eval_sets (reduce_batch_size a) = []) as He.
  { apply load_eval_sets_phone; [now rewrite Hlab | now rewrite Hcor]. }
  split; [exact He|].
  apply (train_invariant a
           (fun s => count is_test (trace s) = 0%nat)
           (fun s => count is_test (trace s) = 0%nat)); auto.
  - intros t s Hs.
    pose proof (iteration_no_tests (reduce_batch_size a) t s He) as H.
    rewrite Hs in H.
    destruct (iteration (reduce_batch_size a) t s) as [[|] s1|e s1];
      exact H.
  - cbn [initial_state trace]. unfold setup.
    rewrite !count_app, count_map_none by reflexivity. reflexivity.
  - cbn [construction_state trace]. unfold datasets.
    rewrite !count_app, count_map_none by reflexivity. reflexivity.
Qed.

Lemma phone_labels_skip_eval_sets_witness :
  count is_test
    (trace (run_state
              (train {| ngpus := 1; batch_size := 50; print_step := 2;
                        corpus := "swbd"; label_type := "phone";
                        eval_sets := ["eval2000"%string]; saved_model := None;
                        learning_rate := 1 # 1000; num_epochs := 3;
                        eval_start_epoch := 1;
                        not_improved_patient_epoch := 5;
                        convert_to_sgd_epoch := 2 |}
                     [epoch_tick 20; epoch_tick 10])))
  = 0%nat.
Proof.
  apply (phone_labels_skip_eval_sets
           {| ngpus := 1; batch_size := 50; print_step := 2;
              corpus := "swbd"; label_type := "phone";
              eval_sets := ["eval2000"%string]; saved_model := None;
              learning_rate := 1 # 1000; num_epochs := 3;
              eval_start_epoch := 1; not_improved_patient_epoch := 5;
              convert_to_sgd_epoch := 2 |}
           [epoch_tick 20; epoch_tick 10]).
  - reflexivity.
  - discriminate.
Defined.

(** The end of an evaluated epoch whose metric does not beat the best. *)
Lemma iteration_not_improved (a : args) (t : tick) (s : state)
    (ev : evaluator) :
  is_new_epoch t = true ->
  print_step a <> 0 ->
  select_evaluator (label_type a) = Some ev ->
  eval_start_epoch a <= epoch s ->
  ~ (metric_dev t < metric_dev_best s)%Q ->
  exists c s',
    iteration a t s = Ret c s' /\
    not_improved_epoch s' = not_improved_epoch s + 1 /\
    metric_dev_best s' = metric_dev_best s /\
    count is_checkpoint (trace s') = count is_checkpoint (trace s) /\
    ((c = Break /\ epoch s' = epoch s /\
      (not_improved_epoch s + 1 = not_improved_patient_epoch a \/
       epoch s = num_epochs a)) \/
     (c = Continue /\ epoch s' = epoch s + 1 /\
      not_improved_epoch s + 1 <> not_improved_patient_epoch a /\
      epoch s <> num_epochs a)).
Proof.
  intros Hn Hp Hev He Hm. destruct s. exec. rewrite Hn, Hev.
  apply Z.eqb_neq in Hp. rewrite Hp. fields.
  apply Qlt_bool_false in Hm.
  repeat branch; tests; try lia; try congruence.
  all: eexists; eexists; (split; [reflexivity|]); fields; counts_more.
  all: repeat split; try lia; auto 6.
Qed.

(** X16: from any state of the loop at or past eval_start_epoch, a run of
    epoch ends none of which beats the best metric, as many as bring the
    non-improvement counter to the patience and not running past
    num_epochs, makes train leave the loop at the last of them (early stop):
    the counter then equals the patience, the best metric is unchanged and
    no checkpoint has been written on the way. *)
Theorem early_stop_after_patience (a : args) (ev : evaluator)
    (ticks : list tick) (s : state) :
  print_step a <> 0 ->
  select_evaluator (label_type a) = Some ev ->
  eval_start_epoch a <= epoch s ->
  ticks <> [] ->
  Forall (fun t => is_new_epoch t = true /\
                   ~ (metric_dev t < metric_dev_best s)%Q) ticks ->
  not_improved_epoch s + Z.of_nat (length ticks)
  = not_improved_patient_epoch a ->
  epoch s + Z.of_nat (length ticks) - 1 <= num_epochs a ->
  exists s',
    loop a ticks s = Returned s' /\
    not_improved_epoch s' = not_improved_patient_epoch a /\
    epoch s' = epoch s + Z.of_nat (length ticks) - 1 /\
    metric_dev_best s' = metric_dev_best s /\
    count is_checkpoint (trace s') = count is_checkpoint (trace s).
Proof.
  intros Hp Hev. revert s.
  induction ticks as [|t ticks IH]; intros s He Hne Hall Hpat Hnum;
    [congruence|].
  inversion Hall as [|t0 l0 [Hn Hm] Hall']; subst.
  destruct (iteration_not_improved a t s ev Hn Hp Hev He Hm)
    as (c & s1 & Hi & Hc & Hb & Hk & Hcase).
  cbn [loop length] in *. rewrite Hi.
  destruct ticks as [|t' ticks'].
  - destruct Hcase as [(-> & Hep & _)|(_ & _ & Hx & _)]; [|cbn in *; lia].
    exists s1. cbn [length] in *. repeat split; auto; lia.
  - destruct Hcase as [(_ & _ & [Hx|Hx])|(-> & Hep & _)];
      try (cbn [length] in *; lia).
    destruct (IH s1) as (s' & Hl & Hc' & Hep' & Hb' & Hk').
    + lia.
    + discriminate.
    + rewrite Hb. exact Hall'.
    + cbn [length] in *. lia.
    + cbn [length] in *. lia.
    + exists s'. cbn [length] in *. repeat split; auto; try lia; congruence.
Qed.

Lemma early_stop_after_patience_witness :
  exists s',
    loop cfg_multi [epoch_tick 100; epoch_tick 100]
      {| epoch := 1; step := 0; lr := 1 # 1000; metric_dev_best := 100;
         not_improved_epoch := 3; trace := [] |}
    = Returned s' /\
    not_improved_epoch s' = 5.
Proof.
  destruct (early_stop_after_patience cfg_multi eval_phone
              [epoch_tick 100; epoch_tick 100]
              {| epoch := 1; step := 0; lr := 1 # 1000;
                 metric_dev_best := 100; not_improved_epoch := 3;
                 trace := [] |})
    as (s' & Hl & Hc & _).
  - cbn. lia.
  - reflexivity.
  - cbn. lia.
  - discriminate.
  - repeat constructor; cbn; unfold Qlt; cbn; lia.
  - reflexivity.
  - cbn. lia.
  - exists s'. split; [exact Hl | exact Hc].
Defined.

(** *** The label types that the loop can evaluate *)

Lemma prefix_spec (sub s : string) :
  prefix sub s = true <-> exists post, s = (sub ++ post)%string.
Proof.
  revert s. induction sub as [|c sub IH]; intros s.
  - split; [intros _; now exists s | now destruct s].
  - destruct s as [|d s]; cbn [prefix].
    + split; [discriminate | intros [post H]; discriminate H].
    + destruct (Ascii.ascii_dec c d) as [->|Hcd].
      * rewrite IH. split; intros [post H]; exists post.
        -- cbn. now rewrite H.
        -- cbn in H. now inversion H.
      * split; [discriminate|]. intros [post H]. cbn in H.
        inversion H. congruence.
Qed.

Lemma contains_unfold (sub s : string) :
  contains sub s
  = if prefix sub s then true
    else match s with
         | EmptyString => false
         | String _ s' => contains sub s'
         end.
Proof. destruct s; reflexivity. Qed.

Lemma contains_spec (sub s : string) :
  contains sub s = true <-> substring_of sub s.
Proof.
  unfold substring_of. split.
  - induction s as [|c s IH]; rewrite contains_unfold;
      destruct (prefix sub _) eqn:E.
    + intros _. apply prefix_spec in E. destruct E as [post E].
      now exists EmptyString, post.
    + discriminate.
    + intros _. apply prefix_spec in E. destruct E as [post E].
      now exists EmptyString, post.
    + intros H. destruct (IH H) as (pre & post & ->).
      now exists (String c pre), post.
  - intros (pre & post & ->). induction pre as [|c pre IH].
    + cbn [append]. rewrite contains_unfold.
      assert (prefix sub (sub ++ post) = true) as ->; [|reflexivity].
      apply prefix_spec. now exists post.
    + rewrite contains_unfold. cbn [append].
      destruct (prefix sub _); [reflexivity | exact IH].
Qed.

(** X17: the dev evaluator is chosen by the label type alone: the word
    evaluator for exactly "word", the wordpiece one for exactly "wordpiece",
    the character one for every other label type that has "char" as a
    substring (also when it has "phone" as well), the phone one for those
    that have "phone" but not "char"; the label types that raise ValueError
    are exactly the remaining ones. *)
Theorem select_evaluator_by_substring (label : string) :
  (select_evaluator label = Some eval_word <-> label = "word"%string) /\
  (select_evaluator label = Some eval_wordpiece <->
   label = "wordpiece"%string) /\
  (select_evaluator label = Some eval_char <->
   label <> "word"%string /\ label <> "wordpiece"%string /\
   substring_of "char" label) /\
  (select_evaluator label = Some eval_phone <->
   label <> "word"%string /\ label <> "wordpiece"%string /\
   ~ substring_of "char" label /\ substring_of "phone" label) /\
  (select_evaluator label = None <->
   label <> "word"%string /\ label <> "wordpiece"%string /\
   ~ substring_of "char" label /\ ~ substring_of "phone" label).
Proof.
  unfold select_evaluator.
  destruct (String.eqb_spec label "word") as [->|H1].
  { repeat split; try discriminate; try tauto; intros; try reflexivity;
      try tauto; try discriminate. }
  destruct (String.eqb_spec label "wordpiece") as [->|H2].
  { repeat split; try discriminate; try tauto; intros; try reflexivity;
      try tauto; try discriminate. }
  rewrite <- !contains_spec.
  destruct (contains "char" label), (contains "phone" label).
  all: repeat split; try discriminate; try tauto; intros; try reflexivity;
    try discriminate; try tauto.
  all: repeat match goal with H : _ /\ _ |- _ => destruct H end;
    try congruence; try contradiction.
Qed.

Lemma select_evaluator_by_substring_witness :
  select_evaluator "phone_wb" = Some eval_phone.
Proof.
  apply (proj1 (proj2 (proj2 (proj2
           (select_evaluator_by_substring "phone_wb"))))).
  split; [discriminate|]. split; [discriminate|]. split.
  - intros H. apply contains_spec in H. discriminate H.
  - apply contains_spec. reflexivity.
Defined.

Lemma iteration_reports (a : args) (t : tick) (s : state) :
  ngpus a = 1 -> 0 < print_step a ->
  0 <= step s ->
  Z.of_nat (count is_update (trace s)) = step s ->
  Z.of_nat (count is_report (trace s)) = step s / print_step a ->
  Z.of_nat (count is_update (trace (res_state (iteration a t s))))
  = step (res_state (iteration a t s)) /\
  Z.of_nat (count is_report (trace (res_state (iteration a t s))))
  = step (res_state (iteration a t s)) / print_step a.
Proof.
  intros Hn Hp. destruct s. fields. intros H0 Hu Hr. exec.
  pose proof (div_succ (print_step a) step0 Hp H0) as Hd.
  rewrite Hn.
  assert ((print_step a =? 0) = false) as -> by (apply Z.eqb_neq; lia).
  fields.
  destruct ((step0 + 1) mod print_step a =? 0); fields; repeat branch.
  all: counts_more; split; lia.
Qed.

(** X18: on one GPU and with a print interval of at least 1, the loop
    reports exactly at every print_step-th optimizer update: along every run
    of train the step counter is the number of updates so far and the number
    of reports is its integer quotient by print_step. *)
Theorem reports_every_print_step (a : args) (ticks : list tick) :
  ngpus a = 1 ->
  0 < print_step a ->
  Z.of_nat (count is_update (trace (run_state (train a ticks))))
  = step (run_state (train a ticks)) /\
  Z.of_nat (count is_report (trace (run_state (train a ticks))))
  = step (run_state (train a ticks)) / print_step a.
Proof.
  intros Hn Hp.
  assert (reduce_batch_size a = a) as Hra.
  { unfold reduce_batch_size.
    assert ((1 <? ngpus a) = false) as -> by (apply Z.ltb_ge; lia).
    reflexivity. }
  destruct (train_invariant a
              (fun s => 0 <= step s /\
                        Z.of_nat (count is_update (trace s)) = step s /\
                        Z.of_nat (count is_report (trace s))
                        = step s / print_step a)
              (fun s => 0 <= step s /\
                        Z.of_nat (count is_update (trace s)) = step s /\
                        Z.of_nat (count is_report (trace s))
                        = step s / print_step a)) with (ticks := ticks)
    as [HQ _]; auto.
  - rewrite Hra. intros t s (H0 & Hu & Hr).
    pose proof (iteration_reports a t s Hn Hp H0 Hu Hr) as [Hu' Hr'].
    destruct (iteration a t s) as [[|] s1|e s1]; cbn [res_state] in *;
      (split; [lia | split; assumption]).
  - rewrite Hra. cbn [initial_state step trace]. unfold setup.
    rewrite !count_app, !count_map_none by reflexivity.
    rewrite Z.div_0_l by lia. cbn. lia.
  - rewrite Hra. cbn [construction_state step trace]. unfold datasets.
    rewrite !count_app, !count_map_none by reflexivity.
    rewrite Z.div_0_l by lia. cbn. lia.
  - tauto.
Qed.

Lemma reports_every_print_step_witness :
  Z.of_nat (count is_report
              (trace (run_state
                        (train cfg_single
                           [batch_tick; batch_tick; batch_tick;
                            batch_tick; batch_tick]))))
  = step (run_state (train cfg_single
                       [batch_tick; batch_tick; batch_tick;
                        batch_tick; batch_tick]))
    / print_step cfg_single.
Proof.
  apply (reports_every_print_step cfg_single
           [batch_tick; batch_tick; batch_tick; batch_tick; batch_tick]).
  - reflexivity.
  - reflexivity.
Defined.

(** *** The subsampling factors *)

Lemma fold_left_add (l : list Z) (a : Z) :
  fold_left Z.add l a = a + py_sum l.
Proof.
  unfold py_sum. revert a. induction l as [|x l IH]; intros a; cbn [fold_left].
  - lia.
  - rewrite IH, (IH (0 + x)). lia.
Qed.

Lemma py_sum_app (l1 l2 : list Z) :
  py_sum (l1 ++ l2) = py_sum l1 + py_sum l2.
Proof.
  unfold py_sum at 1. rewrite fold_left_app, fold_left_add.
  fold (py_sum l1). lia.
Qed.

Lemma py_sum_nonneg (l : list Z) :
  Forall (fun x => 0 <= x) l -> 0 <= py_sum l.
Proof.
  induction 1 as [|x l Hx Hl IH]; [reflexivity|].
  change (x :: l) with ([x] ++ l). rewrite py_sum_app.
  unfold py_sum at 1. cbn. lia.
Qed.

Lemma py_sum_slice_to (k : Z) (l : list Z) :
  Forall (fun x => 0 <= x) l ->
  0 <= py_sum (slice_to k l) <= py_sum l.
Proof.
  intros Hl.
  assert (forall n, 0 <= py_sum (firstn n l) <= py_sum l) as H.
  { intros n. pose proof Hl as Hl'.
    rewrite <- (firstn_skipn n l) in Hl'. apply Forall_app in Hl'.
    destruct Hl' as [Hf Hs].
    rewrite <- (firstn_skipn n l) at 3. rewrite py_sum_app.
    pose proof (py_sum_nonneg (firstn n l) Hf).
    pose proof (py_sum_nonneg (skipn n l) Hs).
    lia. }
  unfold slice_to. destruct (0 <=? k); apply H.
Qed.

(** X19: when no subsample entry is negative, the subsampling factor of the
    main task is the product of the first entries of the non-empty
    conv_poolings times 2 to the sum of subsample, and the factor of the
    secondary task (when train_set_sub is given) divides it by a power of 2,
    whatever enc_num_layers_sub is (also 0 or negative, where the slice
    counts from the end). *)
Theorem subsample_factor_sub_divides (train_set_sub : string)
    (conv_poolings : list (list Z)) (subsample : list Z)
    (enc_num_layers_sub : Z) :
  Forall (fun x => 0 <= x) subsample ->
  (subsample_factor conv_poolings subsample
   == inject_Z (conv_subsample_factor conv_poolings * 2 ^ py_sum subsample))%Q /\
  exists d,
    0 <= d /\
    (subsample_factor conv_poolings subsample
     == subsample_factor_sub (Some train_set_sub) conv_poolings subsample
          enc_num_layers_sub * inject_Z (2 ^ d))%Q.
Proof.
  intros Hl. unfold subsample_factor, subsample_factor_sub, pow2.
  pose proof (py_sum_nonneg subsample Hl) as Hs.
  pose proof (py_sum_slice_to (enc_num_layers_sub - 1) subsample Hl) as Hk.
  split.
  - rewrite inject_Z_mult, (Zpower_Qpower 2 _ Hs). reflexivity.
  - exists (py_sum subsample
            - py_sum (slice_to (enc_num_layers_sub - 1) subsample)).
    split; [lia|].
    rewrite (Zpower_Qpower 2) by lia.
    rewrite <- Qmult_assoc, <- Qpower_plus by discriminate.
    replace (py_sum (slice_to (enc_num_layers_sub - 1) subsample)
             + (py_sum subsample
                - py_sum (slice_to (enc_num_layers_sub - 1) subsample)))
      with (py_sum subsample) by lia.
    reflexivity.
Qed.

Lemma subsample_factor_sub_divides_witness :
  (subsample_factor [[2; 2]; []; [3; 1]]%Z [1; 0; 1; 1]%Z == 48)%Q.
Proof.
  rewrite (proj1 (subsample_factor_sub_divides "sub" [[2; 2]; []; [3; 1]]
                    [1; 0; 1; 1] 3 ltac:(repeat constructor; lia))).
  reflexivity.
Defined.

(** *** The log line of the character error rate on the evaluation sets *)

(** X20: a pass of the loop raises TypeError exactly when it ends an epoch
    at or past eval_start_epoch on which the dev metric improves, the label
    type selects the character evaluator and an evaluation set is loaded: the
    log line of line 398 has three conversions for its two values.  The
    error comes after the checkpoint of the epoch has been written and the
    first evaluation set decoded, and before early stopping and the switch
    to SGD are looked at. *)
Theorem char_eval_set_log_raises (a : args) (t : tick) (s : state) :
  print_step a <> 0 ->
  ((exists msg s', iteration a t s = Exc (TypeError msg) s') <->
   is_new_epoch t = true /\ eval_start_epoch a <= epoch s /\
   (metric_dev t < metric_dev_best s)%Q /\
   select_evaluator (label_type a) = Some eval_char /\
   load_eval_sets a <> []) /\
  (forall msg s',
     iteration a t s = Exc (TypeError msg) s' ->
     count is_checkpoint (trace s') = S (count is_checkpoint (trace s)) /\
     count is_test (trace s') = S (count is_test (trace s)) /\
     count is_sgd (trace s') = count is_sgd (trace s) /\
     metric_dev_best s' = metric_dev t /\
     epoch s' = epoch s).
Proof.
  intros Hp. destruct s. exec.
  apply Z.eqb_neq in Hp. rewrite Hp.
  repeat branch; tests.
  all: split;
    [split;
     [intros (msg & s' & H); try discriminate H;
      repeat split; auto; try lia; try congruence
     |intros (H1 & H2 & H3 & H4 & H5);
      try congruence; try lia; try contradiction;
      eexists; eexists; reflexivity]
    |intros msg s' H; try discriminate H; inv_res; counts_more;
     repeat split; lia].
Qed.

Lemma char_eval_set_log_raises_witness :
  exists msg s',
    iteration {| ngpus := 1; batch_size := 50; print_step := 2;
                 corpus := "csj"; label_type := "character";
                 eval_sets := ["eval1"%string]; saved_model := None;
                 learning_rate := 1 # 1000; num_epochs := 3;
                 eval_start_epoch := 1; not_improved_patient_epoch := 5;
                 convert_to_sgd_epoch := 2 |}
              (epoch_tick 20)
              {| epoch := 1; step := 8; lr := 1 # 1000;
                 metric_dev_best := 100; not_improved_epoch := 0;
                 trace := [] |}
    = Exc (TypeError msg) s'.
Proof.
  apply (proj1 (char_eval_set_log_raises
                  {| ngpus := 1; batch_size := 50; print_step := 2;
                     corpus := "csj"; label_type := "character";
                     eval_sets := ["eval1"%string]; saved_model := None;
                     learning_rate := 1 # 1000; num_epochs := 3;
                     eval_start_epoch := 1; not_improved_patient_epoch := 5;
                     convert_to_sgd_epoch := 2 |}
                  (epoch_tick 20)
                  {| epoch := 1; step := 8; lr := 1 # 1000;
                     metric_dev_best := 100; not_improved_epoch := 0;
                     trace := [] |}
                  ltac:(vm_compute; discriminate))).
  repeat split; try (vm_compute; discriminate); reflexivity.
Defined.
